(** * KAUKA front-end bundles: a shallow embedding and its properties

    The development follows the three JavaScript sources of the site:
    [js/utils/debug.js] (the gated logger), [js/home-bundle.js]
    (breakpoints, responsive images, the content fetchers, the artist
    slideshow and the horizontal-scroll controller) and
    [js/agenda-bundle.js] (the calendar title formatter).

    Browser state the code reads or writes (the [window] object, the
    console, the parts of the document a function touches) is passed
    explicitly; every function returns the state it leaves behind.
    Values supplied by the environment (viewport width, the draw of
    [Math.random], the outcome of an HTTP request) are arguments. *)

From Stdlib Require Import ZArith QArith Qround DecimalString Lia.
From stdpp Require Import base strings gmap list.

Close Scope Q_scope.
Set Warnings "-register-all".
Local Open Scope Z_scope.

(** ** JavaScript values shared by the bundles *)

(** Decimal rendering of an integer inside a template literal. *)
Definition Z_to_string (z : Z) : string := NilZero.string_of_int (Z.to_int z).

(** The double-quote character, for markup attributes. *)
Definition dq : string := String (Ascii.ascii_of_nat 34) EmptyString.

(** A line feed, as it occurs inside multi-line template literals. *)
Definition nl : string := String (Ascii.ascii_of_nat 10) EmptyString.

(** An [Error] object: its constructor name and its message. *)
Record JsError := mkError { ename : string; message : string }.

(** Parsed JSON. Numbers are kept integral; none of the modelled code
    computes with them. *)
Inductive json :=
| JNull
| JBool (b : bool)
| JNum (z : Z)
| JStr (s : string)
| JArr (items : list json)
| JObj (fields : list (string * json)).

(** A promise, seen once the event loop has run its reactions: still
    pending, fulfilled with a value, or rejected with a reason. *)
Inductive Promise (A : Type) :=
| Pending
| Fulfilled (value : A)
| Rejected (reason : JsError).
Arguments Pending {A}.
Arguments Fulfilled {A} value.
Arguments Rejected {A} reason.

(** A [Date], by the calendar fields of its instant in the system time
    zone; months count from 1, as Luxon reads them. *)
Record JsDate := mkDate { year : Z; month : Z; day : Z }.

(** Arguments handed to a console method. [ATemplate] is a template
    literal with its interpolated values kept as values, in order,
    between the literal pieces. *)
Inductive LogArg :=
| AStr (s : string)
| AUndefined
| AJson (j : json)
| ADate (d : JsDate)
| AErr (e : JsError)
| ATemplate (parts : list LogArg).

(** One call of a console method. The console is the list of calls made
    so far, oldest first. *)
Record Entry := mkEntry { method : string; args : list LogArg }.
Abbreviation Console := (list Entry).

(** The names [n] for which [typeof console[n] === "function"] holds:
    the methods of the Console standard. *)
Definition console_functions : list string :=
  ["assert"; "clear"; "count"; "countReset"; "debug"; "dir"; "dirxml";
   "error"; "group"; "groupCollapsed"; "groupEnd"; "info"; "log";
   "table"; "time"; "timeEnd"; "timeLog"; "trace"; "warn"].

Definition console_call (level : string) (con : Console) (a : list LogArg) : Console :=
  con ++ [mkEntry level a].

Definition console_log := console_call "log".
Definition console_warn := console_call "warn".
Definition console_error := console_call "error".

(** An entry of the home page's image pools: per-breakpoint URLs, keyed
    by breakpoint label. *)
Abbreviation ImageSet := (gmap string string).

(** [window.KAUKA_CONFIG]. [debug = None] is a configuration object
    without the key. *)
Record Config := mkConfig {
  debug : option bool;
  baseURL : option string;
  componenteUno : option (list ImageSet);
  componenteDos : option (list ImageSet);
  componenteTres : option (list ImageSet)
}.

(** The global object, as far as the bundles use it. [gsap] and
    [ScrollTrigger] say whether the animation engine and its scroll
    plugin are loaded. *)
Record Window := mkWindow {
  innerWidth : Z;
  KAUKA_CONFIG : option Config;
  KAUKA_DEBUG : bool;
  gsap : bool;
  ScrollTrigger : bool
}.

Definition set_KAUKA_DEBUG (b : bool) (w : Window) : Window :=
  mkWindow (innerWidth w) (KAUKA_CONFIG w) b (gsap w) (ScrollTrigger w).

Definition set_innerWidth (width : Z) (w : Window) : Window :=
  mkWindow width (KAUKA_CONFIG w) (KAUKA_DEBUG w) (gsap w) (ScrollTrigger w).

(** [array[i]] for a numeric index: [undefined] outside the array. *)
Definition js_index {A : Type} (array : list A) (i : Z) : option A :=
  if i <? 0 then None else array !! Z.to_nat i.

(** [a || b] where [a] is a string or [undefined] and [b] a string: the
    empty string is falsy, like [undefined]. *)
Definition js_or (a : option string) (b : string) : string :=
  match a with
  | Some s => if String.eqb s "" then b else s
  | None => b
  end.

(** ** js/utils/debug.js *)

(** [debugLog(level, module, ...args)]. [win] is [None] where
    [typeof window] is ["undefined"]. *)
Definition debugLog (win : option Window) (con : Console)
    (level : string) (module : LogArg) (rest : list LogArg) : Console :=
  match win with
  | Some w =>
      match KAUKA_CONFIG w with
      | Some c =>
          match debug c with
          | Some true =>
              if bool_decide (level ∈ console_functions)
              then console_call level con (module :: rest)
              else con
          | _ => con
          end
      | None => con
      end
  | None => con
  end.

(** The [Debug] object: one wrapper of debugLog per level, and
    [isEnabled], which repeats the test debugLog makes. *)
Module Debug.
Definition isEnabled (win : option Window) : bool :=
  match win with
  | Some w =>
      match KAUKA_CONFIG w with
      | Some c => match debug c with Some true => true | _ => false end
      | None => false
      end
  | None => false
  end.

Definition log win con m rest := debugLog win con "log" m rest.
Definition warn win con m rest := debugLog win con "warn" m rest.
Definition error win con m rest := debugLog win con "error" m rest.
Definition debug win con m rest := debugLog win con "debug" m rest.
Definition info win con m rest := debugLog win con "info" m rest.
End Debug.

(** ** js/home-bundle.js: breakpoints *)

(** [getBreakpoint()], reading [window.innerWidth]. *)
Definition getBreakpoint (w : Window) : string :=
  if 1536 <=? innerWidth w then "2xl"
  else if 1280 <=? innerWidth w then "xl"
  else if 1024 <=? innerWidth w then "lg"
  else if 768 <=? innerWidth w then "md"
  else if 640 <=? innerWidth w then "sm"
  else "all".

(** The labels in the order of the threshold table, smallest first, and
    the position of a label in it. *)
Definition breakpoint_order : list string := ["all"; "sm"; "md"; "lg"; "xl"; "2xl"].

Fixpoint position_in (s : string) (l : list string) : nat :=
  match l with
  | [] => O
  | x :: l' => if String.eqb s x then O else S (position_in s l')
  end.

Definition breakpoint_rank (s : string) : nat := position_in s breakpoint_order.

(** ** js/home-bundle.js: general and image utilities *)

(** [getRandomElement(array)]; [r] is the value [Math.random()] returns
    when it is called, and [None] stands for [null] and [undefined]
    alike (the callers only test truthiness). The product is taken
    exactly here; JavaScript rounds it to binary64. *)
Definition getRandomElement {A : Type} (r : Q) (array : option (list A)) : option A :=
  match array with
  | None => None
  | Some l =>
      if (Z.of_nat (length l) =? 0) then None
      else
        let randomIndex := Qfloor (r * inject_Z (Z.of_nat (length l)))%Q in
        js_index l randomIndex
  end.

(** An [img] element, as far as its [src] goes: the value last assigned,
    [None] when that value was [undefined]. *)
Record ImgEl := mkImg { src : option string }.

(** [getRandomImage(imageList, id)]. The document is seen through
    [document.querySelector(`#${id} img`)]: it maps an id to the first
    image under the element with that id, when there is one. *)
Definition getRandomImage (w : Window) (r : Q)
    (imageList : option (list ImageSet)) (id : string)
    (doc : gmap string ImgEl) : gmap string ImgEl :=
  match getRandomElement r imageList with
  | Some randomImageSet =>
      let bp := getBreakpoint w in
      match doc !! id with
      | Some imgEl => <[id := mkImg (randomImageSet !! bp)]> doc
      | None => doc
      end
  | None => doc
  end.

(** An image of an artist's gallery ([imagenes]); [original_src] is
    [imagen.original.src]. *)
Record Imagen := mkImagen {
  name : string;
  responsive : gmap string string;
  original_src : string
}.

(** [getResponsiveImageUrl(imagen)]. *)
Definition getResponsiveImageUrl (w : Window) (imagen : Imagen) : string :=
  let bp := getBreakpoint w in
  js_or (responsive imagen !! bp) (original_src imagen).

(** ** js/home-bundle.js: data fetching *)

(** A [Response]: its status and what [response.json()] settles to
    (rejected when the body is not JSON). *)
Record Response := mkResponse { status : Z; json_body : Promise json }.

(** [response.ok]: the status is in the range 200 to 299. *)
Definition ok (response : Response) : bool :=
  (200 <=? status response) && (status response <=? 299).

(** [promise.then(onFulfilled)] and [promise.catch(onRejected)]. A
    handler runs against the console and yields the promise its return
    value resolves to; a handler that throws yields a rejected one. *)
Definition then_ {A B : Type} (p : Promise A)
    (onFulfilled : A -> Console -> Promise B * Console) (con : Console)
  : Promise B * Console :=
  match p with
  | Fulfilled value => onFulfilled value con
  | Rejected reason => (Rejected reason, con)
  | Pending => (Pending, con)
  end.

Definition catch_ {A : Type} (p : Promise A)
    (onRejected : JsError -> Console -> Promise A * Console) (con : Console)
  : Promise A * Console :=
  match p with
  | Rejected reason => onRejected reason con
  | _ => (p, con)
  end.

(** The first reaction of both fetchers. *)
Definition check_ok (response : Response) (con : Console) : Promise json * Console :=
  if negb (ok response)
  then (Rejected (mkError "Error" ("HTTP error! status: " +:+ Z_to_string (status response))), con)
  else (json_body response, con).

(** A field of a parsed object; the last occurrence of a key wins. *)
Fixpoint field (key : string) (fields : list (string * json)) : option json :=
  match fields with
  | [] => None
  | (k, v) :: rest =>
      match field key rest with
      | Some v' => Some v'
      | None => if String.eqb k key then Some v else None
      end
  end.

(** [data.length]: a [TypeError] on [null], [undefined] ([None]) where
    the value has no such property. *)
Definition data_length (data : json) : JsError + option json :=
  match data with
  | JNull => inl (mkError "TypeError" "Cannot read properties of null (reading 'length')")
  | JArr items => inr (Some (JNum (Z.of_nat (length items))))
  | JStr s => inr (Some (JNum (Z.of_nat (String.length s))))
  | JObj fields => inr (field "length" fields)
  | JBool _ | JNum _ => inr None
  end.

Definition interpolated (v : option json) : LogArg :=
  match v with Some j => AJson j | None => AUndefined end.

(** [fetchProgramaCuratorial(baseURL = "")]. [fetch] is the network:
    what the request for a URL settles to. *)
Definition fetchProgramaCuratorial (fetch : string -> Promise Response)
    (w : Window) (baseURL : option string) (con : Console)
  : Promise json * Console :=
  let baseURL := default "" baseURL in
  let '(p1, con) := then_ (fetch (baseURL +:+ "/programa-curatorial/index.json")) check_ok con in
  let '(p2, con) :=
    then_ p1 (fun data con =>
      (Fulfilled data,
       if KAUKA_DEBUG w
       then console_log con [AStr "Programa Curatorial data:"; AJson data]
       else con)) con in
  catch_ p2 (fun error con =>
    (Fulfilled (JArr []),
     console_error con [AStr "Error fetching programa-curatorial data:"; AErr error])) con.

(** [fetchArtists(baseURL = "")]. *)
Definition fetchArtists (fetch : string -> Promise Response)
    (w : Window) (baseURL : option string) (con : Console)
  : Promise json * Console :=
  let baseURL := default "" baseURL in
  let '(p1, con) := then_ (fetch (baseURL +:+ "/artistas/index.json")) check_ok con in
  let '(p2, con) :=
    then_ p1 (fun data con =>
      if KAUKA_DEBUG w
      then
        match data_length data with
        | inl typeError => (Rejected typeError, con)
        | inr len =>
            (Fulfilled data,
             console_log con
               [ATemplate [AStr "Found "; interpolated len;
                           AStr " artists with image galleries"]])
        end
      else (Fulfilled data, con)) con in
  catch_ p2 (fun error con =>
    (Fulfilled (JArr []),
     console_error con [AStr "Error fetching artists data:"; AErr error])) con.

(** ** js/home-bundle.js: the home page *)

(** [initHomePage()], from its entry to the end of the step that fills
    the three section images. [r1], [r2], [r3] are the draws of
    [Math.random] of the three calls of getRandomImage, which the
    bundle itself declares. *)
Definition initHomePage_images (w : Window) (con : Console) (r1 r2 r3 : Q)
    (doc : gmap string ImgEl) : Window * Console * gmap string ImgEl :=
  let con := console_log con [AStr "[Home] Initializing home page functionality"] in
  let w := set_KAUKA_DEBUG true w in
  match KAUKA_CONFIG w with
  | Some c =>
      match componenteUno c with
      | Some _ =>
          let con := console_log con [AStr "[Home] Populating dynamic background images"] in
          let doc := getRandomImage w r1 (componenteUno c) "section-img-one" doc in
          let doc := getRandomImage w r2 (componenteDos c) "section-img-two" doc in
          let doc := getRandomImage w r3 (componenteTres c) "section-img-three" doc in
          (w, console_log con [AStr "[Home] Dynamic images populated"], doc)
      | None =>
          (w, console_warn con [AStr "[Home] Image configuration not available in KAUKA_CONFIG"], doc)
      end
  | None =>
      (w, console_warn con [AStr "[Home] Image configuration not available in KAUKA_CONFIG"], doc)
  end.

(** ** js/home-bundle.js: the artist gallery

    Under [window.KAUKA_DEBUG] these functions also describe the
    elements they find on the console; those traces read the state and
    leave it alone, and are not modelled. *)

(** An artist record, as far as the gallery reads it. *)
Record Artist := mkArtist { imagenes : list Imagen; url : string }.

(** [array.slice(0, end)]: a negative [end] counts from the end of the
    array, and the result never exceeds the array. *)
Definition slice0 {A : Type} (array : list A) (end_ : Z) : list A :=
  let len := Z.of_nat (length array) in
  let k := if end_ <? 0 then Z.max (len + end_) 0 else Z.min end_ len in
  take (Z.to_nat k) array.

(** The element tree that the markup assigned to [container.innerHTML]
    parses to: the track with its slides, and the two arrows. Each
    field is one attribute of the markup, with its interpolated value. *)
Record Slide := mkSlide {
  slide_src : string;
  slide_alt : string;
  slide_onclick : string
}.

Record SlideshowDom := mkSlideshowDom {
  track_style : string;
  slides : list Slide;
  prev_style : string;
  next_style : string
}.

(** The [style] attribute of an arrow of a gallery with [n] slides. *)
Definition arrow_style (n : Z) : string :=
  "pointer-events: auto !important; " +:+ (if n <=? 1 then "display:none;" else "").

(** Where the track stands: never moved, moved by [gsap.to] to [x]
    percent, or by a [translateX(x%)] style. The percentage is an exact
    rational here; JavaScript computes it in binary64. *)
Inductive TrackMove :=
| Unmoved
| GsapTo (x : Q)
| StyleTransform (x : Q).

(** What initializeSlideshow leaves behind when it does not return
    early: the variables its closures share, and which click listeners
    it attached. [track] is [None] when the container has no
    [.slideshow-track]. *)
Record Slideshow := mkSlideshow {
  totalSlides : Z;
  currentSlide : Z;
  track : option TrackMove;
  nextListener : bool;
  prevListener : bool
}.

(** The three elements initializeSlideshow looks up in its container. *)
Record Container := mkContainer {
  has_track : bool;
  has_prevBtn : bool;
  has_nextBtn : bool
}.

(** [goToSlide(slideIndex)]. Without the animation engine and without a
    track, the style assignment throws after the index is stored. *)
Definition goToSlide (w : Window) (slideIndex : Z) (s : Slideshow)
  : Slideshow * option JsError :=
  let translateX := (- inject_Z slideIndex * (100 / inject_Z (totalSlides s)))%Q in
  if gsap w then
    (mkSlideshow (totalSlides s) slideIndex
       (match track s with Some _ => Some (GsapTo translateX) | None => None end)
       (nextListener s) (prevListener s), None)
  else
    match track s with
    | Some _ =>
        (mkSlideshow (totalSlides s) slideIndex (Some (StyleTransform translateX))
           (nextListener s) (prevListener s), None)
    | None =>
        (mkSlideshow (totalSlides s) slideIndex None (nextListener s) (prevListener s),
         Some (mkError "TypeError" "Cannot read properties of null (reading 'style')"))
    end.

(** [nextSlide()] and [prevSlide()]; [%] is the remainder of truncated
    division. *)
Definition nextSlide (w : Window) (s : Slideshow) : Slideshow * option JsError :=
  goToSlide w (Z.rem (currentSlide s + 1) (totalSlides s)) s.

Definition prevSlide (w : Window) (s : Slideshow) : Slideshow * option JsError :=
  goToSlide w (Z.rem (currentSlide s - 1 + totalSlides s) (totalSlides s)) s.

(** [initializeSlideshow(container, totalSlides)]; [None] is the early
    return, before any variable or listener exists. *)
Definition initializeSlideshow (container : Container) (totalSlides : Z)
  : option Slideshow :=
  if totalSlides <=? 1 then None
  else
    Some (mkSlideshow totalSlides 0
            (if has_track container then Some Unmoved else None)
            (has_nextBtn container) (has_prevBtn container)).

(** A rendered gallery: the elements, and the slideshow state when one
    was set up. *)
Record Gallery := mkGallery {
  dom : SlideshowDom;
  slideshow : option Slideshow
}.

(** [renderArtistGallery(artist, containerId, maxImages = 6)]. The
    document maps the id of a container to the gallery rendered in it,
    [None] while nothing is. *)
Definition renderArtistGallery (w : Window) (con : Console)
    (doc : gmap string (option Gallery))
    (artist : Artist) (containerId : string) (maxImages : option Z)
  : gmap string (option Gallery) * Console :=
  let maxImages := default 6 maxImages in
  match doc !! containerId with
  | None =>
      (doc, console_error con
              [ATemplate [AStr "Container "; AJson (JStr containerId); AStr " not found"]])
  | Some _ =>
      let imagesToShow := slice0 (imagenes artist) maxImages in
      let n := Z.of_nat (length imagesToShow) in
      let rendered :=
        mkSlideshowDom
          ("width: " +:+ Z_to_string (n * 100) +:+ "%")
          (map (fun imagen =>
                  mkSlide (getResponsiveImageUrl w imagen) (name imagen)
                    ("window.location.href='" +:+ url artist +:+ "'"))
               imagesToShow)
          (arrow_style n) (arrow_style n) in
      (<[containerId := Some (mkGallery rendered
                                (initializeSlideshow (mkContainer true true true) n))]> doc,
       con)
  end.

(** The arrows a visitor can click. *)
Inductive ArrowButton := NextArrow | PrevArrow.

(** A click on an arrow runs the listener attached to it, when there is
    one; an exception thrown by the listener ends it and is dropped by
    the event loop. *)
Definition click (w : Window) (b : ArrowButton) (g : Gallery) : Gallery :=
  match slideshow g with
  | None => g
  | Some s =>
      match b with
      | NextArrow =>
          if nextListener s then mkGallery (dom g) (Some (fst (nextSlide w s))) else g
      | PrevArrow =>
          if prevListener s then mkGallery (dom g) (Some (fst (prevSlide w s))) else g
      end
  end.

Definition clicks (w : Window) (bs : list ArrowButton) (g : Gallery) : Gallery :=
  foldl (fun g b => click w b g) g bs.

(** A sequence of calls of nextSlide and prevSlide, in order. *)
Definition navigate (w : Window) (b : ArrowButton) (s : Slideshow) : Slideshow :=
  match b with
  | NextArrow => fst (nextSlide w s)
  | PrevArrow => fst (prevSlide w s)
  end.

Definition calls (w : Window) (bs : list ArrowButton) (s : Slideshow) : Slideshow :=
  foldl (fun s b => navigate w b s) s bs.

(** ** js/home-bundle.js: horizontal scroll *)

(** The calls made to the animation engine, in order. A scroll trigger
    is named by the number of engine calls made before its creation. *)
Inductive EngineCall :=
| CreateTween
| CreateTrigger (serial : nat)
| KillTrigger (serial : nat).

(** The object initHorizontalScroll returns: its scroll trigger. *)
Record Handle := mkHandle { scrollTrigger : nat }.

(** The page as initHorizontalScroll sees it: the height of [#nav]
    when there is one, whether the trigger and the scrollable element
    exist, and the [min-height] style of the trigger element. *)
Record ScrollPage := mkScrollPage {
  headerHeight : option Z;
  has_container : bool;
  has_scrollable : bool;
  container_minHeight : option string
}.

(** [initHorizontalScroll(selector, scrollableElementSelector, options)].
    The progress traces it writes to the console are not modelled. *)
Definition initHorizontalScroll (w : Window) (page : ScrollPage)
    (engine : list EngineCall) : option Handle * ScrollPage * list EngineCall :=
  if 768 <=? innerWidth w then (None, page, engine)
  else
    let height := default 0 (headerHeight page) in
    let page :=
      if has_container page
      then mkScrollPage (headerHeight page) (has_container page) (has_scrollable page)
             (Some ("calc(100vh - " +:+ Z_to_string height +:+ "px)"))
      else page in
    if negb (gsap w) then (None, page, engine)
    else if negb (ScrollTrigger w) then (None, page, engine)
    else if negb (has_container page) then (None, page, engine)
    else if negb (has_scrollable page) then (None, page, engine)
    else
      let engine := engine ++ [CreateTween] in
      let serial := length engine in
      (Some (mkHandle serial), page, engine ++ [CreateTrigger serial]).

(** [handle.kill()]. *)
Definition kill (h : Handle) (engine : list EngineCall) : list EngineCall :=
  engine ++ [KillTrigger (scrollTrigger h)].

(** The variables of one call of initHomeHorizontalScroll, shared by
    its closures: the handle, whether a debounce timer is pending, and
    the global reference kept for debugging; with them the window, the
    page and the engine calls made so far. *)
Record Controller := mkController {
  horizontalScroll : option Handle;
  resizeTimeout : bool;
  homeHorizontalScroll : option Handle;
  win : Window;
  page : ScrollPage;
  engine : list EngineCall
}.

(** [handleHorizontalScroll()]. The first branch of the source needs a
    handle and the second needs none, so the handle is examined first. *)
Definition handleHorizontalScroll (c : Controller) : Controller :=
  let shouldDisable := 768 <=? innerWidth (win c) in
  match horizontalScroll c with
  | Some h =>
      if shouldDisable
      then mkController None (resizeTimeout c) (homeHorizontalScroll c) (win c) (page c)
             (kill h (engine c))
      else c
  | None =>
      if negb shouldDisable
      then
        let '(created, page', engine') := initHorizontalScroll (win c) (page c) (engine c) in
        mkController created (resizeTimeout c)
          (match created with Some _ => created | None => homeHorizontalScroll c end)
          (win c) page' engine'
      else c
  end.

(** [initHomeHorizontalScroll()]. While the document is loading the
    function only registers itself for [DOMContentLoaded] ([None]);
    otherwise it sets the controller up, with no engine call made yet. *)
Definition initHomeHorizontalScroll (loading : bool) (w : Window) (p : ScrollPage)
  : option Controller :=
  if loading then None
  else Some (handleHorizontalScroll (mkController None false None w p [])).

(** What happens to a controller afterwards: the viewport is resized
    to a width, which runs the resize listener (it clears the pending
    timer and starts one of 250 ms), or the pending timer fires. *)
Inductive ScrollEvent :=
| Resize (width : Z)
| TimerFires.

Definition scroll_step (c : Controller) (ev : ScrollEvent) : Controller :=
  match ev with
  | Resize width =>
      mkController (horizontalScroll c) true (homeHorizontalScroll c)
        (set_innerWidth width (win c)) (page c) (engine c)
  | TimerFires =>
      if resizeTimeout c
      then handleHorizontalScroll
             (mkController (horizontalScroll c) false (homeHorizontalScroll c)
                (win c) (page c) (engine c))
      else c
  end.

Definition scroll_run (c : Controller) (evs : list ScrollEvent) : Controller :=
  foldl scroll_step c evs.

(** Replaying the engine calls: the triggers alive at the end, or
    [None] if a trigger was created while another was alive, or a
    trigger was killed that was not alive. *)
Fixpoint replay (alive : list nat) (calls : list EngineCall) : option (list nat) :=
  match calls with
  | [] => Some alive
  | CreateTween :: rest => replay alive rest
  | CreateTrigger n :: rest =>
      match alive with
      | [] => replay [n] rest
      | _ => None
      end
  | KillTrigger n :: rest =>
      if bool_decide (alive = [n]) then replay [] rest else None
  end.

(** ** js/agenda-bundle.js *)

(** A Luxon [DateTime] in the locale ["es"]: every one in the bundle is
    made by [luxon.DateTime.fromJSDate(date).setLocale("es")]. *)
Record DateTime := mkDateTime { dt_year : Z; dt_month : Z; dt_day : Z }.

Definition fromJSDate_es (date : JsDate) : DateTime :=
  mkDateTime (year date) (month date) (day date).

(** [toFormat("d")]: the day of the month, without padding. *)
Definition toFormat_d (dt : DateTime) : string := Z_to_string (dt_day dt).

(** [toFormat("LLLL")]: the stand-alone name of the month, here in
    Spanish. *)
Definition toFormat_LLLL (dt : DateTime) : string :=
  match dt_month dt with
  | 1 => "enero"
  | 2 => "febrero"
  | 3 => "marzo"
  | 4 => "abril"
  | 5 => "mayo"
  | 6 => "junio"
  | 7 => "julio"
  | 8 => "agosto"
  | 9 => "septiembre"
  | 10 => "octubre"
  | 11 => "noviembre"
  | 12 => "diciembre"
  | _ => ""
  end.

(** [a.hasSame(b, "month")]: both lie in the same month of the same
    year. *)
Definition hasSame_month (a b : DateTime) : bool :=
  (dt_year a =? dt_year b) && (dt_month a =? dt_month b).

(** The view of the calendar passed to the callbacks as
    [context.view]. *)
Record View := mkView { type : string; currentStart : JsDate; currentEnd : JsDate }.

(** The document of the agenda page: the markup inside the first
    element a selector matches, and the [colspan] attribute of each
    [.fc-list-day th]. *)
Record AgendaDocument := mkAgendaDocument {
  innerHTML : gmap string string;
  colspans : list (option string)
}.

(** Pieces of the title markup: the line break and indentation of the
    template literals, and a [div] with a class. *)
Definition indent : string := nl +:+ "            ".

Definition div (class body : string) : string :=
  "<div class=" +:+ dq +:+ class +:+ dq +:+ ">" +:+ body +:+ "</div>".

(** [updateTitle(element, context)]. *)
Definition updateTitle (w : Window) (con : Console) (doc : AgendaDocument)
    (element : string) (view : View) : AgendaDocument * Console :=
  let con :=
    Debug.log (Some w) con
      (ATemplate [AStr "[Agenda] current view type: "; AStr (type view)]) [] in
  match innerHTML doc !! element with
  | None => (doc, con)
  | Some _ =>
      let '(doc, con) :=
        if String.eqb (type view) "listWeek" then
          let con :=
            Debug.info (Some w) con
              (ATemplate [AStr "[Agenda] current week start: "; ADate (currentStart view)]) [] in
          let con :=
            Debug.info (Some w) con
              (ATemplate [AStr "[Agenda] current week end: "; ADate (currentEnd view)]) [] in
          let startDate := fromJSDate_es (currentStart view) in
          let endDate := fromJSDate_es (currentEnd view) in
          let isSameMonth := hasSame_month startDate endDate in
          let con :=
            Debug.info (Some w) con
              (ATemplate [AStr "[Agenda] isSameMonth: "; AJson (JBool isSameMonth)]) [] in
          let titleTemplate :=
            if isSameMonth then
              indent +:+ div "agenda-days" (toFormat_d startDate +:+ " - " +:+ toFormat_d endDate)
              +:+ "  " +:+
              indent +:+ div "agenda-month" (toFormat_LLLL startDate)
            else
              indent +:+ div "agenda-days"
                (toFormat_d startDate +:+ " de " +:+ toFormat_LLLL startDate +:+ " - " +:+
                 toFormat_d endDate +:+ " de " +:+ toFormat_LLLL endDate) in
          (mkAgendaDocument (<[element := titleTemplate]> (innerHTML doc))
             (map (fun _ => Some "4") (colspans doc)), con)
        else (doc, con) in
      if String.eqb (type view) "listMonth" then
        let luxonDate := fromJSDate_es (currentStart view) in
        let titleTemplate := indent +:+ div "agenda-month" (toFormat_LLLL luxonDate) in
        (mkAgendaDocument (<[element := titleTemplate]> (<[element := ""]> (innerHTML doc)))
           (colspans doc), con)
      else (doc, con)
  end.

(** ** js/home-bundle.js: image loading and the background positioner

    The progress traces positionSectionBackground writes to the console
    are not modelled. *)

(** An [img] element, as far as the positioner reads it; [image_id]
    tells the elements apart. *)
Record Image := mkImage {
  image_id : string;
  complete : bool;
  naturalHeight : Z;
  image_src : string
}.

(** [haystack.includes(needle)]. *)
Fixpoint includes (needle haystack : string) : bool :=
  String.prefix needle haystack
  || match haystack with
     | EmptyString => false
     | String _ rest => includes needle rest
     end.

(** [isImageLoaded(img)]. *)
Definition isImageLoaded (img : Image) : bool :=
  complete img && (negb (naturalHeight img =? 0) || includes ".svg" (image_src img)).

(** The inline style of [#section-bg-img]: [top] in pixels and
    [opacity], [None] while not set. The pixel value is an exact
    rational here. *)
Record BgStyle := mkBgStyle { style_top : option Q; style_opacity : option string }.

(** The part of the home page the positioner works on: whether
    [#home-img] exists and its first image that is not hidden, the style
    of [#section-bg-img] when that element exists, the bottom edge of
    [#home-img] in the viewport and the vertical scroll offset; and what
    the positioner has left pending: the 50 ms timeouts that will run
    calculatePosition, and the images carrying one of its load/error
    listeners, one entry per listener. *)
Record HomeSection := mkHomeSection {
  has_homeImg : bool;
  visibleImg : option Image;
  sectionBgImg : option BgStyle;
  rect_bottom : Q;
  scrollY : Q;
  timeouts : nat;
  onLoad : list string
}.

(** [calculatePosition()], the closure of positionSectionBackground. *)
Definition calculatePosition (s : HomeSection) : HomeSection :=
  match sectionBgImg s with
  | Some _ =>
      let homeImgBottom := (rect_bottom s + scrollY s)%Q in
      mkHomeSection (has_homeImg s) (visibleImg s)
        (Some (mkBgStyle (Some homeImgBottom) (Some "1")))
        (rect_bottom s) (scrollY s) (timeouts s) (onLoad s)
  | None => s
  end.

(** [positionSectionBackground()]; isImageLoaded is declared in the
    same bundle, so the branch for its absence is never taken. *)
Definition positionSectionBackground (s : HomeSection) : HomeSection :=
  if negb (has_homeImg s) || negb (bool_decide (is_Some (sectionBgImg s))) then s
  else
    match visibleImg s with
    | None => calculatePosition s
    | Some img =>
        if isImageLoaded img
        then mkHomeSection (has_homeImg s) (visibleImg s) (sectionBgImg s)
               (rect_bottom s) (scrollY s) (S (timeouts s)) (onLoad s)
        else mkHomeSection (has_homeImg s) (visibleImg s) (sectionBgImg s)
               (rect_bottom s) (scrollY s) (timeouts s) (onLoad s ++ [image_id img])
    end.

(** What happens to the section: an image finishes loading with a
    natural height, or fails; a pending timeout fires; the window is
    resized, which runs positionSectionBackground again; the page
    scrolls or reflows, which moves the geometry. *)
Inductive HomeEvent :=
| ImageLoad (id : string) (height : Z)
| ImageError (id : string)
| TimeoutFires
| WindowResize
| Layout (bottom : Q) (scroll : Q).

(** The image after one of its events. *)
Definition settle (id : string) (height : Z) (img : Image) : Image :=
  if String.eqb (image_id img) id
  then mkImage (image_id img) true height (image_src img)
  else img.

(** Every listener attached to the image runs once: it starts a
    timeout and removes itself from both events. *)
Definition run_onLoad (id : string) (height : Z) (s : HomeSection) : HomeSection :=
  mkHomeSection (has_homeImg s) (settle id height <$> visibleImg s) (sectionBgImg s)
    (rect_bottom s) (scrollY s)
    (timeouts s + length (filter (fun x => x = id) (onLoad s)))
    (filter (fun x => x <> id) (onLoad s)).

Definition home_step (s : HomeSection) (ev : HomeEvent) : HomeSection :=
  match ev with
  | ImageLoad id height => run_onLoad id height s
  | ImageError id => run_onLoad id 0 s
  | TimeoutFires =>
      match timeouts s with
      | O => s
      | S n =>
          calculatePosition
            (mkHomeSection (has_homeImg s) (visibleImg s) (sectionBgImg s)
               (rect_bottom s) (scrollY s) n (onLoad s))
      end
  | WindowResize => positionSectionBackground s
  | Layout bottom scroll =>
      mkHomeSection (has_homeImg s) (visibleImg s) (sectionBgImg s)
        bottom scroll (timeouts s) (onLoad s)
  end.

Definition home_run (s : HomeSection) (evs : list HomeEvent) : HomeSection :=
  foldl home_step s evs.

(** ** js/home-bundle.js: the project showcase *)

(** An event of the programme, as renderEvent reads it. The date and
    place fields hold the text their values interpolate to. *)
Record Fecha := mkFecha { dia : string; mes : string; anio : string }.
Record Lugar := mkLugar { nombre : string; direccion : string }.

Record Event := mkEvent {
  title : string;
  inicio : option Fecha;
  lugar : option Lugar;
  hora : option string;
  notas : option string;
  event_url : option string
}.

(** Truthiness of a value that is a string or [undefined]. *)
Definition truthy (v : option string) : bool :=
  match v with
  | Some s => negb (String.eqb s "")
  | None => false
  end.

(** The markup renderEvent assigns to the container: the fixed
    template, given by the values in its seven holes, in order. *)
Record EventMarkup := mkEventMarkup {
  inicio_text : string;
  titulo_text : string;
  lugar_label : string;
  lugar_text : string;
  hora_label : string;
  hora_text : string;
  notas_text : string
}.

(** [#home-project]: its cursor style, the URLs of the click listeners
    attached to it, oldest first, and how many times the five hover and
    touch listeners were attached. *)
Record ProjectEl := mkProjectEl {
  cursor : option string;
  clickListeners : list string;
  hoverListeners : nat
}.

(** The project section: what [#home-project-container] holds when it
    exists, [#home-project], whether [#home-project-diamond] carries the
    class [show] when it exists, and [window.location.href]. *)
Record HomeProject := mkHomeProject {
  project_container : option (option EventMarkup);
  homeProject : option ProjectEl;
  projectDiamond : option bool;
  href : string
}.

(** A console line written only under [window.KAUKA_DEBUG]. *)
Definition debug_line (w : Window) (con : Console) (a : list LogArg) : Console :=
  if KAUKA_DEBUG w then console_log con a else con.

(** [initializeProjectClickHandler(eventUrl)]. *)
Definition initializeProjectClickHandler (w : Window) (con : Console)
    (eventUrl : option string) (p : HomeProject) : HomeProject * Console :=
  match homeProject p with
  | Some el =>
      if truthy eventUrl then
        let target := default "" eventUrl in
        (mkHomeProject (project_container p)
           (Some (mkProjectEl (Some "pointer") (clickListeners el ++ [target])
                    (hoverListeners el)))
           (projectDiamond p) (href p),
         debug_line w con [AStr "Project click handler initialized for URL:"; AStr target])
      else (p, debug_line w con [AStr "Home project element or event URL not found"])
  | None => (p, debug_line w con [AStr "Home project element or event URL not found"])
  end.

(** [renderEvent(event)]. *)
Definition renderEvent (w : Window) (con : Console) (event : Event) (p : HomeProject)
  : HomeProject * Console :=
  match project_container p with
  | None => (p, console_error con [AStr "Home project container not found"])
  | Some _ =>
      let markup :=
        mkEventMarkup
          (match inicio event with
           | Some f => dia f +:+ "/" +:+ mes f +:+ "/" +:+ anio f
           | None => ""
           end)
          (title event)
          (match lugar event with
           | Some _ => div "event-label" "Sede/lugar"
           | None => ""
           end)
          (match lugar event with
           | Some l => nombre l +:+ "<br />" +:+ direccion l
           | None => ""
           end)
          (if truthy (hora event) then div "event-label" "Hora:" else "")
          (js_or (hora event) "")
          (js_or (notas event) "") in
      initializeProjectClickHandler w con (event_url event)
        (mkHomeProject (Some (Some markup)) (homeProject p) (projectDiamond p) (href p))
  end.

(** A click on [#home-project]: every listener runs, in the order of
    attachment, and sets [window.location.href] to its URL. *)
Definition project_click (w : Window) (con : Console) (p : HomeProject)
  : HomeProject * Console :=
  match homeProject p with
  | None => (p, con)
  | Some el =>
      foldl (fun '(p, con) target =>
               (mkHomeProject (project_container p) (homeProject p) (projectDiamond p) target,
                debug_line w con [AStr "Home project clicked, navigating to:"; AStr target]))
        (p, con) (clickListeners el)
  end.

(** [initializeProjectDiamondHover()]. *)
Definition initializeProjectDiamondHover (w : Window) (con : Console) (p : HomeProject)
  : HomeProject * Console :=
  match homeProject p, projectDiamond p with
  | Some el, Some _ =>
      let con := debug_line w con [AStr "Diamond initialized as hidden (opacity: 0)"] in
      (mkHomeProject (project_container p)
         (Some (mkProjectEl (cursor el) (clickListeners el) (S (hoverListeners el))))
         (Some false) (href p),
       debug_line w con [AStr "Diamond hover effect initialized with opacity transitions"])
  | _, _ => (p, debug_line w con [AStr "Home project or diamond element not found"])
  end.

(** The pointer events the hover listeners are attached to. *)
Inductive PointerEvent := MouseEnter | MouseLeave | TouchStart | TouchEnd | TouchCancel.

Definition shows (ev : PointerEvent) : bool :=
  match ev with
  | MouseEnter | TouchStart => true
  | MouseLeave | TouchEnd | TouchCancel => false
  end.

Definition pointer_message (ev : PointerEvent) : string :=
  match ev with
  | MouseEnter => "Diamond shown on hover (opacity: 1)"
  | MouseLeave => "Diamond hidden on mouse leave (opacity: 0)"
  | TouchStart => "Diamond shown on touch (opacity: 1)"
  | TouchEnd => "Diamond hidden on touch end (opacity: 0)"
  | TouchCancel => "Diamond hidden on touch cancel (opacity: 0)"
  end.

(** A pointer event on [#home-project]: each listener attached for it
    adds or removes the class [show] and writes its line. *)
Definition pointer_step (w : Window) (st : HomeProject * Console) (ev : PointerEvent)
  : HomeProject * Console :=
  let '(p, con) := st in
  match homeProject p with
  | Some el =>
      match hoverListeners el with
      | O => (p, con)
      | S _ =>
          (mkHomeProject (project_container p) (homeProject p)
             (match projectDiamond p with Some _ => Some (shows ev) | None => None end)
             (href p),
           foldl (fun con _ => debug_line w con [AStr (pointer_message ev)])
             con (replicate (hoverListeners el) tt))
      end
  | None => (p, con)
  end.

Definition pointer_run (w : Window) (st : HomeProject * Console) (evs : list PointerEvent)
  : HomeProject * Console :=
  foldl (pointer_step w) st evs.

(** * Specification vocabulary and sample pages *)

(** ** Windows and configurations *)

(** A window of the given width and nothing else: no configuration, no
    animation engine. *)
Definition width (n : Z) : Window := mkWindow n None false false false.

(** A page configured with [debug: false], and one with [debug: true]. *)
Definition config_debug (b : bool) : Config := mkConfig (Some b) None None None None.
Definition page_debug (b : bool) : Window :=
  mkWindow 1024 (Some (config_debug b)) false false false.

(** A desktop page with the engine loaded and both elements present. *)
Definition desktop : Window := mkWindow 1000 None false true true.
Definition page_componentes : ScrollPage := mkScrollPage (Some 64) true true None.

(** ** Images, pools and galleries *)

(** An image whose "sm" entry is present and empty. *)
Definition imagen_empty_sm : Imagen :=
  mkImagen "obra" {[ "sm" := "" ]} "/img/obra.jpg".

(** An image with a "lg" entry only. *)
Definition imagen_lg_only : Imagen :=
  mkImagen "obra" {[ "lg" := "/img/obra-lg.jpg" ]} "/img/obra.jpg".

(** A pool of two image sets, the second without an "sm" entry, and a
    page with an image under [section-img-one]. *)
Definition pool_two : list ImageSet :=
  [ {[ "sm" := "/img/a-sm.jpg" ]} ; {[ "lg" := "/img/b-lg.jpg" ]} ].

Definition page_one_img : gmap string ImgEl :=
  {[ "section-img-one" := mkImg (Some "/img/placeholder.jpg") ]}.

(** Five slides, standing on the first. *)
Definition five_slides : Slideshow := mkSlideshow 5 0 (Some Unmoved) true true.

(** An artist with one image, and a page with an empty gallery
    container. *)
Definition artist_one_image : Artist :=
  mkArtist [imagen_lg_only] "/artistas/obra/".

Definition page_gallery : gmap string (option Gallery) :=
  {[ "home-artistas-galeria" := None ]}.

(** ** The network *)

(** The three ways a request fails: the transport rejects, the status
    is outside 200..299, or the body does not parse as JSON. *)
Inductive request_failed : Promise Response -> Prop :=
| transport_failure (e : JsError) :
    request_failed (Rejected e)
| http_status_failure (response : Response) :
    ~ (200 <= status response <= 299) ->
    request_failed (Fulfilled response)
| json_parse_failure (response : Response) (e : JsError) :
    json_body response = Rejected e ->
    request_failed (Fulfilled response).

(** A network that answers 404 to the programme and drops the
    connection for the artists. *)
Definition network_down (url : string) : Promise Response :=
  if String.eqb url "https://kauka.example/programa-curatorial/index.json"
  then Fulfilled (mkResponse 404 (Fulfilled (JStr "Not Found")))
  else Rejected (mkError "TypeError" "Failed to fetch").

(** ** The scroll controller *)

(** The triggers a handle variable accounts for. *)
Definition alive_of (h : option Handle) : list nat :=
  match h with
  | Some h => [scrollTrigger h]
  | None => []
  end.

(** What holds of a controller at every moment, on a page where the
    engine and both elements are there. *)
Record controller_ok (c : Controller) : Prop := mkControllerOk {
  ok_gsap : gsap (win c) = true;
  ok_ScrollTrigger : ScrollTrigger (win c) = true;
  ok_container : has_container (page c) = true;
  ok_scrollable : has_scrollable (page c) = true;
  ok_engine : replay [] (engine c) = Some (alive_of (horizontalScroll c))
}.

(** A controller is settled when no debounce timer is pending. *)
Definition settled_ok (c : Controller) : Prop :=
  resizeTimeout c = false ->
  (horizontalScroll c <> None <-> innerWidth (win c) < 768).

(** ** The agenda page *)

(** The agenda page before the first title is written: the toolbar
    title as the calendar library left it, and three day headers. *)
Definition agenda_page : AgendaDocument :=
  mkAgendaDocument {[ ".fc-toolbar-title" := "5 - 11 de mayo de 2025" ]} [None; None; None].

Definition week_view (start end_ : JsDate) : View := mkView "listWeek" start end_.

(** ** More sample pages *)

(** A network that serves one artist, and the value null as the
    programme. *)
Definition response_artists : Response :=
  mkResponse 200 (Fulfilled (JArr [JObj [("name", JStr "Obra")]])).

Definition response_null : Response := mkResponse 200 (Fulfilled JNull).

Definition network_up (url : string) : Promise Response :=
  if String.eqb url "/artistas/index.json"
  then Fulfilled response_artists
  else Fulfilled response_null.

(** A network on which every request answers with null. *)
Definition network_null (url : string) : Promise Response := Fulfilled response_null.

(** The page after initHomePage has run: [window.KAUKA_DEBUG] is set. *)
Definition page_after_init : Window := set_KAUKA_DEBUG true (page_debug false).

(** An artist with two images. *)
Definition artist_two_images : Artist :=
  mkArtist [imagen_lg_only; imagen_empty_sm] "/artistas/obra/".

(** The handle of the trigger created last among the engine calls. *)
Definition last_created (calls : list EngineCall) : option Handle :=
  foldl (fun acc call =>
           match call with
           | CreateTrigger serial => Some (mkHandle serial)
           | _ => acc
           end) None calls.

(** What holds of a controller in every environment: the engine calls
    replay to the triggers of the handle, and the global reference is
    the handle created last. *)
Record controller_sound (c : Controller) : Prop := mkControllerSound {
  sound_engine : replay [] (engine c) = Some (alive_of (horizontalScroll c));
  sound_global : homeHorizontalScroll c = last_created (engine c)
}.

(** A phone-sized window with the engine loaded, and one without it. *)
Definition phone : Window := mkWindow 390 None false true true.
Definition phone_no_engine : Window := mkWindow 390 None false false false.

(** ** The home section *)

(** A photograph still loading, the same once it failed, and a logo in
    SVG that is complete. *)
Definition photo_loading : Image := mkImage "hero" false 0 "/img/hero.jpg".
Definition logo_svg : Image := mkImage "logo" true 0 "/img/kauka.svg".

(** The home section around a visible image, nothing pending, the
    background not yet styled, [#home-img] ending 600 px down. *)
Definition home_section (img : option Image) : HomeSection :=
  mkHomeSection true img (Some (mkBgStyle None None)) 600 0 O [].

(** Both elements the positioner needs are on the page. *)
Definition elements_present (s : HomeSection) : Prop :=
  has_homeImg s = true /\ is_Some (sectionBgImg s).


(** ** The project section *)

(** An event with a page of its own and one without. *)
Definition event_taller : Event :=
  mkEvent "Taller de grabado" (Some (mkFecha "12" "9" "2025"))
    (Some (mkLugar "Casa Kauka" "Calle 5 # 4-32")) (Some "3:00 pm") None
    (Some "/programa-curatorial/taller-de-grabado/").

Definition event_sin_pagina : Event :=
  mkEvent "Conversatorio" None None (Some "") None None.

(** The project section of the home page before anything is rendered,
    the diamond carrying the class show. *)
Definition project_section : HomeProject :=
  mkHomeProject (Some None) (Some (mkProjectEl None [] O)) (Some true) "/".

(** * Properties *)

(** ** Breakpoints *)

Ltac breakpoint_cases :=
  unfold getBreakpoint;
  repeat match goal with
         | |- context [?a <=? ?b] => destruct (Z.leb_spec a b)
         end.

Lemma getBreakpoint_in_order (w : Window) : getBreakpoint w ∈ breakpoint_order.
Proof. breakpoint_cases; unfold breakpoint_order; set_solver. Qed.

Lemma breakpoint_rank_monotone (w1 w2 : Window) :
  innerWidth w1 <= innerWidth w2 ->
  (breakpoint_rank (getBreakpoint w1) <= breakpoint_rank (getBreakpoint w2))%nat.
Proof. intros Hle. breakpoint_cases; cbn; lia. Qed.

(** C5. For every viewport width, getBreakpoint returns the label the
    threshold table gives: "2xl" from 1536, "xl" from 1280, "lg" from
    1024, "md" from 768, "sm" from 640, "all" below; each label is
    returned on exactly its interval, and a wider viewport never gets a
    smaller label in the order all < sm < md < lg < xl < 2xl. At 639 the
    label is "all", at 640 "sm", at 1536 "2xl". *)
Theorem getBreakpoint_threshold_table (w1 w2 : Window)
    (Hle : innerWidth w1 <= innerWidth w2) :
  getBreakpoint w1 ∈ breakpoint_order
  /\ (getBreakpoint w1 = "2xl" <-> 1536 <= innerWidth w1)
  /\ (getBreakpoint w1 = "xl" <-> 1280 <= innerWidth w1 < 1536)
  /\ (getBreakpoint w1 = "lg" <-> 1024 <= innerWidth w1 < 1280)
  /\ (getBreakpoint w1 = "md" <-> 768 <= innerWidth w1 < 1024)
  /\ (getBreakpoint w1 = "sm" <-> 640 <= innerWidth w1 < 768)
  /\ (getBreakpoint w1 = "all" <-> innerWidth w1 < 640)
  /\ (breakpoint_rank (getBreakpoint w1) <= breakpoint_rank (getBreakpoint w2))%nat
  /\ getBreakpoint (width 639) = "all"
  /\ getBreakpoint (width 640) = "sm"
  /\ getBreakpoint (width 1536) = "2xl".
Proof.
  repeat match goal with |- _ /\ _ => split end;
    try reflexivity;
    try apply getBreakpoint_in_order;
    try (apply breakpoint_rank_monotone; exact Hle);
    clear w2 Hle;
    breakpoint_cases; split; intros; (lia || discriminate || reflexivity).
Qed.

Lemma getBreakpoint_threshold_table_witness :
  getBreakpoint (width 767) = "sm"
  /\ getBreakpoint (width 768) = "md"
  /\ (breakpoint_rank (getBreakpoint (width 767)) <= breakpoint_rank (getBreakpoint (width 768)))%nat.
Proof.
  assert (Hle : innerWidth (width 767) <= innerWidth (width 768)) by (simpl; lia).
  pose proof (getBreakpoint_threshold_table (width 767) (width 768) Hle) as H.
  split; [reflexivity | split; [reflexivity | apply H]].
Defined.

(** ** Responsive images *)

(** C6, as stated, fails where the entry for the breakpoint is present
    but is the empty string: the entry is there, and the original URL is
    returned. *)
Lemma getResponsiveImageUrl_empty_entry :
  responsive imagen_empty_sm !! getBreakpoint (width 640) = Some ""
  /\ getResponsiveImageUrl (width 640) imagen_empty_sm = "/img/obra.jpg"
  /\ getResponsiveImageUrl (width 640) imagen_empty_sm <> "".
Proof. repeat split; discriminate. Qed.

(** C6, amended. getResponsiveImageUrl returns the entry of the current
    breakpoint when it is present and not the empty string; when the
    entry is absent, or present and empty, it returns the original URL.
    It is a total function of the record: an absent entry raises
    nothing. *)
Theorem getResponsiveImageUrl_entry_or_original (w : Window) (imagen : Imagen) :
  (forall u, responsive imagen !! getBreakpoint w = Some u -> u <> "" ->
             getResponsiveImageUrl w imagen = u)
  /\ (responsive imagen !! getBreakpoint w = None ->
      getResponsiveImageUrl w imagen = original_src imagen)
  /\ (responsive imagen !! getBreakpoint w = Some "" ->
      getResponsiveImageUrl w imagen = original_src imagen).
Proof.
  unfold getResponsiveImageUrl. repeat split.
  - intros u -> Hu. simpl. destruct (String.eqb_spec u ""); [contradiction | reflexivity].
  - intros ->. reflexivity.
  - intros ->. reflexivity.
Qed.

Lemma getResponsiveImageUrl_entry_or_original_witness :
  getResponsiveImageUrl (width 1100) imagen_lg_only = "/img/obra-lg.jpg"
  /\ getResponsiveImageUrl (width 640) imagen_lg_only = "/img/obra.jpg".
Proof.
  destruct (getResponsiveImageUrl_entry_or_original (width 1100) imagen_lg_only) as [Hpresent _].
  destruct (getResponsiveImageUrl_entry_or_original (width 640) imagen_lg_only) as [_ [Habsent _]].
  split.
  - apply Hpresent; [reflexivity | discriminate].
  - rewrite Habsent; reflexivity.
Defined.

(** The index drawn by getRandomElement is inside the array. *)
Lemma random_index_in_range (r : Q) (n : Z) :
  (0 <= r)%Q -> (r < 1)%Q -> 0 < n ->
  0 <= Qfloor (r * inject_Z n)%Q < n.
Proof.
  intros H0 H1 Hn.
  assert (Hn' : (0 < inject_Z n)%Q) by (change 0%Q with (inject_Z 0); rewrite <- Zlt_Qlt; exact Hn).
  split.
  - change 0 with (Qfloor (inject_Z 0)) at 1. apply Qfloor_resp_le.
    apply Qmult_le_0_compat; [exact H0 | apply Qlt_le_weak; exact Hn'].
  - rewrite Zlt_Qlt. eapply Qle_lt_trans; [apply Qfloor_le |].
    rewrite <- (Qmult_1_l (inject_Z n)) at 2.
    apply Qmult_lt_compat_r; [exact Hn' | exact H1].
Qed.

Lemma getRandomElement_nonempty {A : Type} (r : Q) (l : list A) :
  l <> [] -> (0 <= r)%Q -> (r < 1)%Q ->
  exists x, getRandomElement r (Some l) = Some x /\ x ∈ l.
Proof.
  intros Hne H0 H1. unfold getRandomElement.
  assert (Hlen : 0 < Z.of_nat (length l)) by (destruct l; [congruence | simpl; lia]).
  destruct (Z.eqb_spec (Z.of_nat (length l)) 0) as [E | _]; [lia |].
  pose proof (random_index_in_range r _ H0 H1 Hlen) as [Hlo Hhi].
  unfold js_index. destruct (Z.ltb_spec (Qfloor (r * inject_Z (Z.of_nat (length l)))) 0); [lia |].
  destruct (lookup_lt_is_Some_2 l (Z.to_nat (Qfloor (r * inject_Z (Z.of_nat (length l))))))
    as [x Hx]; [lia |].
  exists x. split; [exact Hx | eapply list_elem_of_lookup_2; exact Hx].
Qed.

(** C10. For a non-empty image list, getRandomImage sets the image's
    src to the chosen set's entry for the current breakpoint, as it is;
    when the set has no such entry the value assigned is undefined and
    no original URL is substituted, whereas getResponsiveImageUrl on a
    record with the same entries returns the record's original URL. *)
Theorem getRandomImage_assigns_entry_without_fallback
    (w : Window) (r : Q) (imageList : list ImageSet) (id : string)
    (doc : gmap string ImgEl) (imgEl : ImgEl)
    (Hne : imageList <> [])
    (Hr0 : (0 <= r)%Q) (Hr1 : (r < 1)%Q)
    (Himg : doc !! id = Some imgEl) :
  exists randomImageSet : ImageSet,
    randomImageSet ∈ imageList
    /\ getRandomElement r (Some imageList) = Some randomImageSet
    /\ getRandomImage w r (Some imageList) id doc !! id
       = Some (mkImg (randomImageSet !! getBreakpoint w))
    /\ (randomImageSet !! getBreakpoint w = None ->
        src <$> (getRandomImage w r (Some imageList) id doc !! id) = Some None
        /\ forall alt original,
             getResponsiveImageUrl w (mkImagen alt randomImageSet original) = original).
Proof.
  destruct (getRandomElement_nonempty r imageList Hne Hr0 Hr1) as [s [Hs Hin]].
  exists s. split; [exact Hin |]. split; [exact Hs |].
  assert (Hset : getRandomImage w r (Some imageList) id doc !! id
                 = Some (mkImg (s !! getBreakpoint w))).
  { unfold getRandomImage. rewrite Hs, Himg. apply lookup_insert_eq. }
  split; [exact Hset |].
  intros Habs. split.
  - rewrite Hset, Habs. reflexivity.
  - intros alt original. unfold getResponsiveImageUrl.
    cbn [responsive original_src]. rewrite Habs. reflexivity.
Qed.

Lemma getRandomImage_assigns_entry_without_fallback_witness :
  exists randomImageSet : ImageSet,
    randomImageSet ∈ pool_two
    /\ getRandomElement (3 # 4) (Some pool_two) = Some randomImageSet
    /\ getRandomImage (width 640) (3 # 4) (Some pool_two) "section-img-one" page_one_img
         !! "section-img-one"
       = Some (mkImg (randomImageSet !! getBreakpoint (width 640)))
    /\ (randomImageSet !! getBreakpoint (width 640) = None ->
        src <$> (getRandomImage (width 640) (3 # 4) (Some pool_two) "section-img-one"
                   page_one_img !! "section-img-one") = Some None
        /\ forall alt original,
             getResponsiveImageUrl (width 640) (mkImagen alt randomImageSet original) = original).
Proof.
  apply (getRandomImage_assigns_entry_without_fallback (width 640) (3 # 4) pool_two
           "section-img-one" page_one_img (mkImg (Some "/img/placeholder.jpg"))).
  - discriminate.
  - unfold Qle; simpl; lia.
  - unfold Qlt; simpl; lia.
  - reflexivity.
Defined.

(** ** The debug logger *)

Lemma isEnabled_true (win : option Window) :
  Debug.isEnabled win = true <->
  exists w c, win = Some w /\ KAUKA_CONFIG w = Some c /\ debug c = Some true.
Proof.
  unfold Debug.isEnabled. split.
  - destruct win as [w |]; [| discriminate].
    destruct (KAUKA_CONFIG w) as [c |] eqn:Hc; [| discriminate].
    destruct (debug c) as [[|] |] eqn:Hd; try discriminate.
    intros _. exists w, c. auto.
  - intros (w & c & -> & -> & ->). reflexivity.
Qed.

Lemma debugLog_disabled (win : option Window) (con : Console)
    (level : string) (module : LogArg) (rest : list LogArg) :
  Debug.isEnabled win = false -> debugLog win con level module rest = con.
Proof.
  unfold Debug.isEnabled, debugLog.
  destruct win as [w |]; [| reflexivity].
  destruct (KAUKA_CONFIG w) as [c |]; [| reflexivity].
  destruct (debug c) as [[|] |]; (discriminate || reflexivity).
Qed.

Lemma debugLog_enabled (win : option Window) (con : Console)
    (level : string) (module : LogArg) (rest : list LogArg) :
  Debug.isEnabled win = true ->
  debugLog win con level module rest
  = if bool_decide (level ∈ console_functions)
    then con ++ [mkEntry level (module :: rest)] else con.
Proof.
  intros (w & c & -> & Hc & Hd)%isEnabled_true.
  unfold debugLog. rewrite Hc, Hd. reflexivity.
Qed.

(** C9, as stated, fails in the home bundle: with [debug: false] in the
    configuration, initHomePage writes to the console all the same. *)
Lemma initHomePage_logs_with_debug_off :
  Debug.isEnabled (Some (page_debug false)) = false
  /\ snd (fst (initHomePage_images (page_debug false) [] 0 0 0 ∅))
     = [ mkEntry "log" [AStr "[Home] Initializing home page functionality"];
         mkEntry "warn" [AStr "[Home] Image configuration not available in KAUKA_CONFIG"] ].
Proof. split; reflexivity. Qed.

(** C9, amended. Every logging operation of the Debug utility (debugLog
    and Debug.log, warn, error, debug, info) writes to the console only
    when window.KAUKA_CONFIG.debug is true: when the flag is false or
    absent, or there is no configuration or no window, the console is
    left as it was; when it is true the call is passed on to the console
    method of that level. *)
Theorem debug_logging_gated_by_config_flag (win : option Window) (con : Console)
    (level : string) (module : LogArg) (rest : list LogArg) :
  (Debug.isEnabled win = false ->
     debugLog win con level module rest = con
     /\ Debug.log win con module rest = con
     /\ Debug.warn win con module rest = con
     /\ Debug.error win con module rest = con
     /\ Debug.debug win con module rest = con
     /\ Debug.info win con module rest = con)
  /\ (debugLog win con level module rest <> con ->
      exists w c, win = Some w /\ KAUKA_CONFIG w = Some c /\ debug c = Some true)
  /\ (Debug.isEnabled win = true ->
      (level ∈ console_functions ->
       debugLog win con level module rest = con ++ [mkEntry level (module :: rest)])
      /\ Debug.log win con module rest = con ++ [mkEntry "log" (module :: rest)]
      /\ Debug.warn win con module rest = con ++ [mkEntry "warn" (module :: rest)]
      /\ Debug.error win con module rest = con ++ [mkEntry "error" (module :: rest)]
      /\ Debug.debug win con module rest = con ++ [mkEntry "debug" (module :: rest)]
      /\ Debug.info win con module rest = con ++ [mkEntry "info" (module :: rest)]).
Proof.
  split; [| split].
  - intros Hoff.
    unfold Debug.log, Debug.warn, Debug.error, Debug.debug, Debug.info.
    repeat split; apply debugLog_disabled; exact Hoff.
  - intros Hne. apply isEnabled_true.
    destruct (Debug.isEnabled win) eqn:Hen; [reflexivity |].
    exfalso. apply Hne. apply debugLog_disabled. exact Hen.
  - intros Hon.
    unfold Debug.log, Debug.warn, Debug.error, Debug.debug, Debug.info.
    split; [| repeat split; rewrite (debugLog_enabled _ _ _ _ _ Hon); reflexivity].
    intros Hin. rewrite (debugLog_enabled _ _ _ _ _ Hon).
    rewrite bool_decide_eq_true_2; [reflexivity | exact Hin].
Qed.

Lemma debug_logging_gated_by_config_flag_witness :
  Debug.info (Some (page_debug false)) [] (AStr "[Agenda] datesSet call") [] = []
  /\ Debug.info (Some (page_debug true)) [] (AStr "[Agenda] datesSet call") []
     = [mkEntry "info" [AStr "[Agenda] datesSet call"]].
Proof.
  destruct (debug_logging_gated_by_config_flag (Some (page_debug false)) []
              "info" (AStr "[Agenda] datesSet call") []) as [Hoff _].
  destruct (debug_logging_gated_by_config_flag (Some (page_debug true)) []
              "info" (AStr "[Agenda] datesSet call") []) as [_ [_ Hon]].
  split.
  - apply Hoff. reflexivity.
  - apply Hon. reflexivity.
Defined.

(** ** The fetchers *)

Lemma ok_status (response : Response) :
  ok response = true <-> 200 <= status response <= 299.
Proof. unfold ok. rewrite andb_true_iff, !Z.leb_le. reflexivity. Qed.

Lemma check_ok_failed (response : Response) (con : Console) :
  request_failed (Fulfilled response) ->
  exists e, check_ok response con = (Rejected e, con).
Proof.
  intros Hf. unfold check_ok. inversion Hf as [| r Hst | r e Hbody]; subst.
  - destruct (ok response) eqn:Hok; [apply ok_status in Hok; contradiction |].
    simpl. eauto.
  - destruct (ok response); simpl; [rewrite Hbody |]; eauto.
Qed.

Section Fetchers.
Variable fetch : string -> Promise Response.
Variable w : Window.
Variable baseURL : option string.
Variable con : Console.

Let url_programa := default "" baseURL +:+ "/programa-curatorial/index.json".
Let url_artistas := default "" baseURL +:+ "/artistas/index.json".

Lemma fetchProgramaCuratorial_failed :
  request_failed (fetch url_programa) ->
  exists e,
    fetchProgramaCuratorial fetch w baseURL con
    = (Fulfilled (JArr []),
       console_error con [AStr "Error fetching programa-curatorial data:"; AErr e]).
Proof.
  unfold fetchProgramaCuratorial. fold url_programa. intros Hf.
  destruct (fetch url_programa) as [| response | e] eqn:Hnet.
  - inversion Hf.
  - destruct (check_ok_failed response con Hf) as [e He].
    simpl. rewrite He. simpl. eauto.
  - simpl. eauto.
Qed.

Lemma fetchArtists_failed :
  request_failed (fetch url_artistas) ->
  exists e,
    fetchArtists fetch w baseURL con
    = (Fulfilled (JArr []),
       console_error con [AStr "Error fetching artists data:"; AErr e]).
Proof.
  unfold fetchArtists. fold url_artistas. intros Hf.
  destruct (fetch url_artistas) as [| response | e] eqn:Hnet.
  - inversion Hf.
  - destruct (check_ok_failed response con Hf) as [e He].
    simpl. rewrite He. simpl. eauto.
  - simpl. eauto.
Qed.

Lemma fetchProgramaCuratorial_not_rejected (e : JsError) :
  fst (fetchProgramaCuratorial fetch w baseURL con) <> Rejected e.
Proof.
  unfold fetchProgramaCuratorial. fold url_programa.
  destruct (fetch url_programa) as [| response |]; simpl; try discriminate.
  destruct (check_ok response con) as [[| data |] c]; simpl; discriminate.
Qed.

Lemma fetchArtists_not_rejected (e : JsError) :
  fst (fetchArtists fetch w baseURL con) <> Rejected e.
Proof.
  unfold fetchArtists. fold url_artistas.
  destruct (fetch url_artistas) as [| response |]; simpl; try discriminate.
  destruct (check_ok response con) as [[| data |] c]; simpl; try discriminate.
  destruct (KAUKA_DEBUG w); simpl; try discriminate.
  destruct (data_length data); simpl; discriminate.
Qed.
End Fetchers.

(** C2. For both fetchers and every outcome of the request: when the
    transport fails, the status is not 2xx, or the body fails to parse,
    the returned promise is fulfilled with the empty array; and whatever
    the request does, the returned promise is never rejected. *)
Theorem fetchers_resolve_empty_on_failure
    (fetch : string -> Promise Response) (w : Window)
    (baseURL : option string) (con : Console) :
  (request_failed (fetch (default "" baseURL +:+ "/programa-curatorial/index.json")) ->
   fst (fetchProgramaCuratorial fetch w baseURL con) = Fulfilled (JArr []))
  /\ (request_failed (fetch (default "" baseURL +:+ "/artistas/index.json")) ->
      fst (fetchArtists fetch w baseURL con) = Fulfilled (JArr []))
  /\ (forall e, fst (fetchProgramaCuratorial fetch w baseURL con) <> Rejected e)
  /\ (forall e, fst (fetchArtists fetch w baseURL con) <> Rejected e).
Proof.
  repeat split.
  - intros Hf. destruct (fetchProgramaCuratorial_failed fetch w baseURL con Hf) as [e ->].
    reflexivity.
  - intros Hf. destruct (fetchArtists_failed fetch w baseURL con Hf) as [e ->].
    reflexivity.
  - apply fetchProgramaCuratorial_not_rejected.
  - apply fetchArtists_not_rejected.
Qed.

Lemma fetchers_resolve_empty_on_failure_witness :
  fst (fetchProgramaCuratorial network_down (page_debug false)
         (Some "https://kauka.example") []) = Fulfilled (JArr [])
  /\ fst (fetchArtists network_down (page_debug false)
            (Some "https://kauka.example") []) = Fulfilled (JArr []).
Proof.
  destruct (fetchers_resolve_empty_on_failure network_down (page_debug false)
              (Some "https://kauka.example") []) as [Hp [Ha _]].
  split.
  - apply Hp. apply http_status_failure. simpl. lia.
  - apply Ha. apply transport_failure.
Defined.

(** ** The slideshow *)

Lemma goToSlide_index (w : Window) (i : Z) (s : Slideshow) :
  currentSlide (fst (goToSlide w i s)) = i
  /\ totalSlides (fst (goToSlide w i s)) = totalSlides s.
Proof.
  unfold goToSlide. destruct (gsap w); [| destruct (track s)]; split; reflexivity.
Qed.

Lemma nextSlide_index (w : Window) (s : Slideshow) :
  0 < totalSlides s -> 0 <= currentSlide s ->
  currentSlide (fst (nextSlide w s)) = (currentSlide s + 1) mod totalSlides s.
Proof.
  intros HN Hc. unfold nextSlide.
  rewrite (proj1 (goToSlide_index _ _ _)).
  apply Z.rem_mod_nonneg; lia.
Qed.

Lemma prevSlide_index (w : Window) (s : Slideshow) :
  0 < totalSlides s -> 0 <= currentSlide s ->
  currentSlide (fst (prevSlide w s)) = (currentSlide s - 1) mod totalSlides s.
Proof.
  intros HN Hc. unfold prevSlide.
  rewrite (proj1 (goToSlide_index _ _ _)).
  rewrite Z.rem_mod_nonneg by lia.
  replace (currentSlide s - 1 + totalSlides s)
    with (currentSlide s - 1 + 1 * totalSlides s) by lia.
  apply Z_mod_plus_full.
Qed.

Lemma navigate_total (w : Window) (b : ArrowButton) (s : Slideshow) :
  totalSlides (navigate w b s) = totalSlides s.
Proof. destruct b; simpl; apply goToSlide_index. Qed.

Lemma navigate_in_range (w : Window) (b : ArrowButton) (s : Slideshow) :
  0 < totalSlides s -> 0 <= currentSlide s ->
  0 <= currentSlide (navigate w b s) < totalSlides s.
Proof.
  intros HN Hc. destruct b; simpl.
  - rewrite nextSlide_index by assumption. apply Z.mod_pos_bound. exact HN.
  - rewrite prevSlide_index by assumption. apply Z.mod_pos_bound. exact HN.
Qed.

(** [k] calls of nextSlide in a row. *)
Lemma nextSlide_iterated (w : Window) (s : Slideshow) (k : nat) :
  0 < totalSlides s -> 0 <= currentSlide s ->
  totalSlides (Nat.iter k (navigate w NextArrow) s) = totalSlides s
  /\ currentSlide (Nat.iter k (navigate w NextArrow) s)
     = if k is O then currentSlide s
       else (currentSlide s + Z.of_nat k) mod totalSlides s.
Proof.
  intros HN Hc. induction k as [| k [IHt IHc]]; [split; reflexivity |].
  rewrite Nat.iter_succ. split; [rewrite navigate_total; exact IHt |].
  assert (Hk : 0 <= currentSlide (Nat.iter k (navigate w NextArrow) s)).
  { rewrite IHc. destruct k as [| k']; [exact Hc |].
    apply Z.mod_pos_bound. exact HN. }
  cbn [navigate]. rewrite nextSlide_index by (rewrite ?IHt; assumption).
  rewrite IHt, IHc. destruct k as [| k'].
  - reflexivity.
  - rewrite Zplus_mod_idemp_l. f_equal. lia.
Qed.

(** C3. In a slideshow of N >= 2 slides whose index is valid, nextSlide
    moves the index to (index + 1) mod N and prevSlide to
    (index - 1) mod N. Hence, from index 0, N calls of nextSlide in a
    row bring the index back to 0, and one call of prevSlide gives
    N - 1. *)
Theorem slideshow_navigation_wraps (w : Window) (s : Slideshow)
    (HN : 2 <= totalSlides s)
    (Hc : 0 <= currentSlide s < totalSlides s) :
  currentSlide (fst (nextSlide w s)) = (currentSlide s + 1) mod totalSlides s
  /\ currentSlide (fst (prevSlide w s)) = (currentSlide s - 1) mod totalSlides s
  /\ (currentSlide s = 0 ->
      currentSlide (Nat.iter (Z.to_nat (totalSlides s)) (fun s => fst (nextSlide w s)) s) = 0
      /\ currentSlide (fst (prevSlide w s)) = totalSlides s - 1).
Proof.
  split; [apply nextSlide_index; lia |].
  split; [apply prevSlide_index; lia |].
  intros H0. split.
  - destruct (nextSlide_iterated w s (Z.to_nat (totalSlides s))) as [_ Hk]; [lia | lia |].
    change (fun s0 => fst (nextSlide w s0)) with (navigate w NextArrow).
    rewrite Hk. destruct (Z.to_nat (totalSlides s)) eqn:E; [lia |].
    rewrite <- E, Z2Nat.id, H0 by lia. apply Z_mod_same_full.
  - rewrite prevSlide_index, H0 by lia.
    replace (0 - 1) with (totalSlides s - 1 + (-1) * totalSlides s) by lia.
    rewrite Z_mod_plus_full. apply Z.mod_small. lia.
Qed.

Lemma slideshow_navigation_wraps_witness :
  currentSlide (fst (nextSlide (width 1024) five_slides)) = 1
  /\ currentSlide (Nat.iter 5 (fun s => fst (nextSlide (width 1024) s)) five_slides) = 0
  /\ currentSlide (fst (prevSlide (width 1024) five_slides)) = 4.
Proof.
  assert (HN : 2 <= totalSlides five_slides) by (simpl; lia).
  assert (Hc : 0 <= currentSlide five_slides < totalSlides five_slides) by (simpl; lia).
  destruct (slideshow_navigation_wraps (width 1024) five_slides HN Hc) as [Hn [_ Hz]].
  destruct (Hz eq_refl) as [Hcycle Hprev].
  split; [exact Hn | split; [exact Hcycle | exact Hprev]].
Defined.

Lemma initializeSlideshow_Some (container : Container) (N : Z) (s : Slideshow) :
  initializeSlideshow container N = Some s ->
  2 <= N /\ totalSlides s = N /\ currentSlide s = 0.
Proof.
  unfold initializeSlideshow. destruct (Z.leb_spec N 1); [discriminate |].
  intros [= <-]. simpl. lia.
Qed.

Lemma calls_in_range (w : Window) (bs : list ArrowButton) (s : Slideshow) :
  0 < totalSlides s -> 0 <= currentSlide s < totalSlides s ->
  totalSlides (calls w bs s) = totalSlides s
  /\ 0 <= currentSlide (calls w bs s) < totalSlides s.
Proof.
  intros HN. revert s HN. unfold calls.
  induction bs as [| b bs IH]; intros s HN Hc; [split; [reflexivity | exact Hc] |].
  cbn [foldl].
  pose proof (navigate_total w b s) as Ht.
  pose proof (navigate_in_range w b s HN (proj1 Hc)) as Hr.
  destruct (IH (navigate w b s)) as [IHt IHc]; [lia | lia |].
  split; [lia | lia].
Qed.

(** C4. A slideshow set up by initializeSlideshow for N slides starts
    at index 0, and after any sequence of calls of nextSlide and
    prevSlide its slide count is still N and its index is an integer
    with 0 <= index < N. Each further step computes the index as
    (index + 1) mod N or (index - 1) mod N: the bound comes from the
    remainder, there is no clamping. *)
Theorem slideshow_index_stays_in_range
    (w : Window) (container : Container) (N : Z) (s0 : Slideshow)
    (bs : list ArrowButton)
    (Hinit : initializeSlideshow container N = Some s0) :
  currentSlide s0 = 0
  /\ totalSlides (calls w bs s0) = N
  /\ 0 <= currentSlide (calls w bs s0) < N
  /\ currentSlide (fst (nextSlide w (calls w bs s0)))
     = (currentSlide (calls w bs s0) + 1) mod N
  /\ currentSlide (fst (prevSlide w (calls w bs s0)))
     = (currentSlide (calls w bs s0) - 1) mod N.
Proof.
  apply initializeSlideshow_Some in Hinit as (HN & Ht & Hc).
  destruct (calls_in_range w bs s0) as [Ht' Hc']; [lia | lia |].
  rewrite Ht in Ht', Hc'.
  split; [exact Hc |]. split; [exact Ht' |]. split; [exact Hc' |].
  rewrite <- Ht'. split; [apply nextSlide_index | apply prevSlide_index]; lia.
Qed.

Lemma slideshow_index_stays_in_range_witness :
  currentSlide (calls (width 1024) [PrevArrow; PrevArrow; NextArrow; PrevArrow]
                  (mkSlideshow 3 0 (Some Unmoved) true true)) = 1
  /\ 0 <= currentSlide (calls (width 1024) [PrevArrow; PrevArrow; NextArrow; PrevArrow]
                          (mkSlideshow 3 0 (Some Unmoved) true true)) < 3.
Proof.
  split; [reflexivity |].
  apply (slideshow_index_stays_in_range (width 1024) (mkContainer true true true) 3
           (mkSlideshow 3 0 (Some Unmoved) true true)
           [PrevArrow; PrevArrow; NextArrow; PrevArrow]).
  reflexivity.
Defined.

(** ** Galleries of at most one slide *)

Lemma clicks_without_slideshow (w : Window) (bs : list ArrowButton) (g : Gallery) :
  slideshow g = None -> clicks w bs g = g.
Proof.
  intros Hnone. unfold clicks. induction bs as [| b bs IH]; [reflexivity |].
  cbn [foldl]. unfold click at 2. rewrite Hnone. exact IH.
Qed.

(** C8. Rendering a gallery whose capped image list has at most one
    image writes both arrows with [display:none;] in their style, and
    initializeSlideshow returns before it creates its state or attaches
    a listener: the gallery has no slideshow state, and no sequence of
    clicks on the arrows changes it. *)
Theorem gallery_single_slide_has_no_navigation
    (w : Window) (con : Console) (doc : gmap string (option Gallery))
    (artist : Artist) (containerId : string) (maxImages : option Z)
    (content : option Gallery)
    (Hcontainer : doc !! containerId = Some content)
    (Hfew : (length (slice0 (imagenes artist) (default 6%Z maxImages)) <= 1)%nat) :
  exists g : Gallery,
    fst (renderArtistGallery w con doc artist containerId maxImages) !! containerId
    = Some (Some g)
    /\ length (slides (dom g)) = length (slice0 (imagenes artist) (default 6 maxImages))
    /\ prev_style (dom g) = "pointer-events: auto !important; display:none;"
    /\ next_style (dom g) = "pointer-events: auto !important; display:none;"
    /\ (forall container, initializeSlideshow container (Z.of_nat (length (slides (dom g)))) = None)
    /\ slideshow g = None
    /\ (forall w' bs, clicks w' bs g = g).
Proof.
  unfold renderArtistGallery. rewrite Hcontainer. cbn zeta.
  set (imagesToShow := slice0 (imagenes artist) (default 6 maxImages)) in *.
  assert (Hn : (Z.of_nat (length imagesToShow) <=? 1) = true) by (apply Z.leb_le; lia).
  eexists. split; [cbn [fst]; apply lookup_insert_eq |].
  cbn [dom slides prev_style next_style slideshow].
  unfold arrow_style, initializeSlideshow. rewrite length_map, Hn.
  repeat split; try reflexivity.
  intros w' bs. apply clicks_without_slideshow. reflexivity.
Qed.

Lemma gallery_single_slide_has_no_navigation_witness :
  exists g : Gallery,
    fst (renderArtistGallery (width 1024) [] page_gallery artist_one_image
           "home-artistas-galeria" None) !! "home-artistas-galeria" = Some (Some g)
    /\ length (slides (dom g)) = length (slice0 (imagenes artist_one_image) (default 6 None))
    /\ prev_style (dom g) = "pointer-events: auto !important; display:none;"
    /\ next_style (dom g) = "pointer-events: auto !important; display:none;"
    /\ (forall container, initializeSlideshow container (Z.of_nat (length (slides (dom g)))) = None)
    /\ slideshow g = None
    /\ (forall w' bs, clicks w' bs g = g).
Proof.
  apply (gallery_single_slide_has_no_navigation (width 1024) [] page_gallery
           artist_one_image "home-artistas-galeria" None None).
  - reflexivity.
  - simpl. lia.
Defined.

(** ** The horizontal scroll controller *)

Lemma replay_app (alive : list nat) (cs1 cs2 : list EngineCall) :
  replay alive (cs1 ++ cs2)
  = match replay alive cs1 with
    | Some alive' => replay alive' cs2
    | None => None
    end.
Proof.
  revert alive. induction cs1 as [| c cs1 IH]; intros alive; [reflexivity |].
  destruct c as [| n | n]; cbn [app replay].
  - apply IH.
  - destruct alive; [apply IH | reflexivity].
  - case_bool_decide; [apply IH | reflexivity].
Qed.

Lemma handleHorizontalScroll_ok (c : Controller) :
  controller_ok c ->
  controller_ok (handleHorizontalScroll c)
  /\ (horizontalScroll (handleHorizontalScroll c) <> None <-> innerWidth (win c) < 768)
  /\ win (handleHorizontalScroll c) = win c
  /\ resizeTimeout (handleHorizontalScroll c) = resizeTimeout c.
Proof.
  intros [Hg Ht Hc Hs He]. unfold handleHorizontalScroll.
  destruct (horizontalScroll c) as [h |] eqn:Hh;
    destruct (Z.leb_spec 768 (innerWidth (win c))) as [Hw | Hw]; cbn [negb].
  - (* wide, a handle: it is killed *)
    repeat split; cbn; try assumption; try (intros; lia); try congruence.
    unfold kill. rewrite replay_app, He. cbn.
    rewrite bool_decide_eq_true_2; reflexivity.
  - (* narrow, a handle: nothing to do *)
    repeat split; try assumption; try (intros; lia); congruence.
  - (* wide, no handle: nothing to do *)
    repeat split; try assumption; try (intros; lia); congruence.
  - (* narrow, no handle: one is created *)
    unfold initHorizontalScroll.
    destruct (Z.leb_spec 768 (innerWidth (win c))); [lia |].
    rewrite Hc, Hg, Ht. cbn [negb has_container has_scrollable]. rewrite ?Hc, ?Hs. cbn [negb].
    repeat split; cbn; try assumption; try (intros; lia); try congruence.
    rewrite !replay_app, He. reflexivity.
Qed.

Lemma scroll_step_ok (c : Controller) (ev : ScrollEvent) :
  controller_ok c -> settled_ok c ->
  controller_ok (scroll_step c ev) /\ settled_ok (scroll_step c ev).
Proof.
  intros Hok Hset. destruct ev as [width |]; cbn [scroll_step].
  - split; [destruct Hok; constructor; assumption |].
    intros Hpending. discriminate Hpending.
  - destruct (resizeTimeout c) eqn:Hp; [| split; assumption].
    set (c' := mkController _ false _ _ _ _).
    assert (Hok' : controller_ok c') by (destruct Hok; constructor; assumption).
    destruct (handleHorizontalScroll_ok c' Hok') as (Hok'' & Hiff & Hwin & _).
    split; [exact Hok'' |]. intros _. rewrite Hwin. exact Hiff.
Qed.

Lemma scroll_run_ok (evs : list ScrollEvent) (c : Controller) :
  controller_ok c -> settled_ok c ->
  controller_ok (scroll_run c evs) /\ settled_ok (scroll_run c evs).
Proof.
  revert c. unfold scroll_run.
  induction evs as [| ev evs IH]; intros c Hok Hset; [split; assumption |].
  cbn [foldl]. destruct (scroll_step_ok c ev Hok Hset) as [Hok' Hset'].
  apply IH; assumption.
Qed.

Lemma initHomeHorizontalScroll_ok (loading : bool) (w0 : Window) (page0 : ScrollPage)
    (c0 : Controller) :
  gsap w0 = true -> ScrollTrigger w0 = true ->
  has_container page0 = true -> has_scrollable page0 = true ->
  initHomeHorizontalScroll loading w0 page0 = Some c0 ->
  controller_ok c0 /\ settled_ok c0.
Proof.
  intros Hg Ht Hc Hs. unfold initHomeHorizontalScroll.
  destruct loading; [discriminate |]. intros [= <-].
  set (c := mkController None false None w0 page0 []).
  assert (Hok : controller_ok c) by (constructor; (assumption || reflexivity)).
  destruct (handleHorizontalScroll_ok c Hok) as (Hok' & Hiff & Hwin & _).
  split; [exact Hok' |]. intros _. rewrite Hwin. exact Hiff.
Qed.

(** A resize to [width] followed by the firing of its timer. *)
Lemma resize_settles (c : Controller) (width : Z) :
  controller_ok c ->
  (horizontalScroll (scroll_run c [Resize width; TimerFires]) <> None <-> width < 768)
  /\ controller_ok (scroll_run c [Resize width; TimerFires])
  /\ settled_ok (scroll_run c [Resize width; TimerFires]).
Proof.
  intros Hok. cbn [scroll_run foldl scroll_step resizeTimeout].
  set (c' := mkController _ false _ _ _ _).
  assert (Hok' : controller_ok c') by (destruct Hok; constructor; assumption).
  destruct (handleHorizontalScroll_ok c' Hok') as (Hok'' & Hiff & Hwin & _).
  split; [exact Hiff |]. split; [exact Hok'' |].
  intros _. rewrite Hwin. exact Hiff.
Qed.

(** C7. On a page with the animation engine, its scroll plugin, the
    trigger element and the scrollable element, take the controller set
    up by initHomeHorizontalScroll and any sequence of resizes and
    timer firings. Whenever no debounce timer is pending, the handle is
    non-null exactly when the width is below 768. The engine calls made
    so far replay without a trigger created while another is alive and
    without a kill of a trigger that is not alive, and the triggers
    alive are those of the handle. From any such state, settling at
    width 1000 leaves no handle, settling at 500 after it gives one, and
    settling at 1000 again removes it. *)
Theorem horizontal_scroll_handle_tracks_width
    (loading : bool) (w0 : Window) (page0 : ScrollPage) (c0 : Controller)
    (evs : list ScrollEvent)
    (Hgsap : gsap w0 = true) (Hplugin : ScrollTrigger w0 = true)
    (Hcontainer : has_container page0 = true)
    (Hscrollable : has_scrollable page0 = true)
    (Hinit : initHomeHorizontalScroll loading w0 page0 = Some c0) :
  (resizeTimeout (scroll_run c0 evs) = false ->
   (horizontalScroll (scroll_run c0 evs) <> None
    <-> innerWidth (win (scroll_run c0 evs)) < 768))
  /\ replay [] (engine (scroll_run c0 evs))
     = Some (alive_of (horizontalScroll (scroll_run c0 evs)))
  /\ horizontalScroll (scroll_run c0 (evs ++ [Resize 1000; TimerFires])) = None
  /\ horizontalScroll
       (scroll_run c0 (evs ++ [Resize 1000; TimerFires] ++ [Resize 500; TimerFires]))
     <> None
  /\ horizontalScroll
       (scroll_run c0 (evs ++ [Resize 1000; TimerFires] ++ [Resize 500; TimerFires]
                           ++ [Resize 1000; TimerFires]))
     = None.
Proof.
  destruct (initHomeHorizontalScroll_ok loading w0 page0 c0
              Hgsap Hplugin Hcontainer Hscrollable Hinit) as [Hok0 Hset0].
  destruct (scroll_run_ok evs c0 Hok0 Hset0) as [Hok Hset].
  split; [exact Hset |]. split; [apply Hok |].
  unfold scroll_run in *. rewrite !foldl_app.
  set (c := foldl scroll_step c0 evs) in *.
  destruct (resize_settles c 1000 Hok) as (H1 & Hok1 & _).
  unfold scroll_run in *.
  set (c1 := foldl scroll_step c [Resize 1000; TimerFires]) in *.
  destruct (resize_settles c1 500 Hok1) as (H2 & Hok2 & _).
  unfold scroll_run in *.
  set (c2 := foldl scroll_step c1 [Resize 500; TimerFires]) in *.
  destruct (resize_settles c2 1000 Hok2) as (H3 & _ & _).
  unfold scroll_run in *.
  split; [| split].
  - destruct (horizontalScroll c1); [exfalso; apply (Z.lt_irrefl 768) | reflexivity].
    assert (1000 < 768) by (apply H1; discriminate). lia.
  - apply H2. lia.
  - destruct (horizontalScroll (foldl scroll_step c2 [Resize 1000; TimerFires]));
      [exfalso | reflexivity].
    assert (1000 < 768) by (apply H3; discriminate). lia.
Qed.

Lemma horizontal_scroll_handle_tracks_width_witness :
  horizontalScroll (handleHorizontalScroll (mkController None false None desktop page_componentes []))
  = None
  /\ horizontalScroll
       (scroll_run (handleHorizontalScroll
                      (mkController None false None desktop page_componentes []))
          [Resize 500; TimerFires]) = Some (mkHandle 1)
  /\ replay []
       (engine (scroll_run (handleHorizontalScroll
                              (mkController None false None desktop page_componentes []))
                  [Resize 500; TimerFires])) = Some [1%nat].
Proof.
  pose proof (horizontal_scroll_handle_tracks_width false desktop page_componentes
                (handleHorizontalScroll (mkController None false None desktop page_componentes []))
                [Resize 500; TimerFires]
                eq_refl eq_refl eq_refl eq_refl eq_refl) as [_ [Hreplay _]].
  split; [reflexivity | split; [reflexivity | exact Hreplay]].
Defined.

(** ** The calendar title *)

(** C1. In the week-list view, when the title element exists,
    updateTitle replaces its markup: if the start and the end of the
    view lie in the same month, by the two day numbers joined by " - "
    in one block and the Spanish month name in a second block below it;
    otherwise by one block reading
    "{startDay} de {startMonth} - {endDay} de {endMonth}". For the week
    from May 5 to May 11 the blocks read "5 - 11" and "mayo"; for April
    28 to May 4 the block reads "28 de abril - 4 de mayo". *)
Theorem updateTitle_week_list_title
    (w : Window) (con : Console) (doc : AgendaDocument) (element : string)
    (start end_ : JsDate) (old : string)
    (Htitle : innerHTML doc !! element = Some old) :
  ((year start = year end_ /\ month start = month end_) ->
   innerHTML (fst (updateTitle w con doc element (week_view start end_))) !! element
   = Some (indent +:+ div "agenda-days"
                        (Z_to_string (day start) +:+ " - " +:+ Z_to_string (day end_))
           +:+ "  " +:+
           indent +:+ div "agenda-month" (toFormat_LLLL (fromJSDate_es start))))
  /\ (~ (year start = year end_ /\ month start = month end_) ->
      innerHTML (fst (updateTitle w con doc element (week_view start end_))) !! element
      = Some (indent +:+ div "agenda-days"
                (Z_to_string (day start) +:+ " de " +:+ toFormat_LLLL (fromJSDate_es start)
                 +:+ " - " +:+
                 Z_to_string (day end_) +:+ " de " +:+ toFormat_LLLL (fromJSDate_es end_))))
  /\ innerHTML (fst (updateTitle w con agenda_page ".fc-toolbar-title"
                       (week_view (mkDate 2025 5 5) (mkDate 2025 5 11))))
       !! ".fc-toolbar-title"
     = Some (indent +:+ div "agenda-days" "5 - 11" +:+ "  " +:+
             indent +:+ div "agenda-month" "mayo")
  /\ innerHTML (fst (updateTitle w con agenda_page ".fc-toolbar-title"
                       (week_view (mkDate 2025 4 28) (mkDate 2025 5 4))))
       !! ".fc-toolbar-title"
     = Some (indent +:+ div "agenda-days" "28 de abril - 4 de mayo").
Proof.
  assert (Hgen : forall same,
    hasSame_month (fromJSDate_es start) (fromJSDate_es end_) = same ->
    innerHTML (fst (updateTitle w con doc element (week_view start end_))) !! element
    = Some (if same
            then indent +:+ div "agenda-days"
                   (toFormat_d (fromJSDate_es start) +:+ " - " +:+ toFormat_d (fromJSDate_es end_))
                 +:+ "  " +:+ indent +:+ div "agenda-month" (toFormat_LLLL (fromJSDate_es start))
            else indent +:+ div "agenda-days"
                   (toFormat_d (fromJSDate_es start) +:+ " de " +:+
                    toFormat_LLLL (fromJSDate_es start) +:+ " - " +:+
                    toFormat_d (fromJSDate_es end_) +:+ " de " +:+
                    toFormat_LLLL (fromJSDate_es end_)))).
  { intros same Hsame. unfold updateTitle, week_view. cbn [type currentStart currentEnd].
    rewrite Htitle. change (String.eqb "listWeek" "listWeek") with true.
    change (String.eqb "listWeek" "listMonth") with false. cbn iota.
    rewrite Hsame. cbn [fst innerHTML]. apply lookup_insert_eq. }
  assert (Hsame : hasSame_month (fromJSDate_es start) (fromJSDate_es end_) = true
                  <-> year start = year end_ /\ month start = month end_).
  { unfold hasSame_month, fromJSDate_es. cbn [dt_year dt_month].
    rewrite andb_true_iff, !Z.eqb_eq. reflexivity. }
  split; [| split; [| split]].
  - intros Heq. apply Hsame in Heq. exact (Hgen true Heq).
  - intros Hne. apply (Hgen false).
    destruct (hasSame_month _ _); [exfalso; apply Hne, Hsame; reflexivity | reflexivity].
  - unfold updateTitle. cbn -[Debug.log Debug.info div indent]. apply lookup_insert_eq.
  - unfold updateTitle. cbn -[Debug.log Debug.info div indent]. apply lookup_insert_eq.
Qed.

Lemma updateTitle_week_list_title_witness :
  innerHTML (fst (updateTitle (page_debug false) [] agenda_page ".fc-toolbar-title"
                    (week_view (mkDate 2025 6 30) (mkDate 2025 7 6))))
    !! ".fc-toolbar-title"
  = Some (indent +:+ div "agenda-days" "30 de junio - 6 de julio").
Proof.
  destruct (updateTitle_week_list_title (page_debug false) [] agenda_page
              ".fc-toolbar-title" (mkDate 2025 6 30) (mkDate 2025 7 6)
              "5 - 11 de mayo de 2025" eq_refl) as [_ [Hcross _]].
  apply Hcross. simpl. intros [_ H]. discriminate H.
Defined.

(** * Further properties of the bundles *)

(** ** Random selection and images *)






(** X3. The URL getResponsiveImageUrl returns is the record's entry for
    the current breakpoint or its original URL, and it is the empty
    string only if the original URL is empty. *)
Theorem getResponsiveImageUrl_never_empty (w : Window) (imagen : Imagen) :
  (responsive imagen !! getBreakpoint w = Some (getResponsiveImageUrl w imagen)
   \/ getResponsiveImageUrl w imagen = original_src imagen)
  /\ (original_src imagen <> "" -> getResponsiveImageUrl w imagen <> "").
Proof.
  unfold getResponsiveImageUrl. cbn zeta.
  destruct (responsive imagen !! getBreakpoint w) as [u |]; cbn [js_or].
  - destruct (String.eqb_spec u "") as [-> | Hu].
    + split; [right; reflexivity | tauto].
    + split; [left; reflexivity | intros _; exact Hu].
  - split; [right; reflexivity | tauto].
Qed.

Lemma getResponsiveImageUrl_never_empty_witness :
  getResponsiveImageUrl (width 640) imagen_empty_sm <> "".
Proof.
  apply (getResponsiveImageUrl_never_empty (width 640) imagen_empty_sm).
  discriminate.
Defined.

(** ** The debug logger, continued *)



(** ** The fetchers, continued *)

Lemma check_ok_accepts (response : Response) (con : Console) :
  200 <= status response <= 299 ->
  check_ok response con = (json_body response, con).
Proof. intros Hok%ok_status. unfold check_ok. rewrite Hok. reflexivity. Qed.

Lemma check_ok_refuses (response : Response) (con : Console) :
  ~ (200 <= status response <= 299) ->
  check_ok response con
  = (Rejected (mkError "Error" ("HTTP error! status: " +:+ Z_to_string (status response))),
     con).
Proof.
  intros Hbad. unfold check_ok.
  destruct (ok response) eqn:Hok; [apply ok_status in Hok; contradiction | reflexivity].
Qed.

(** X5. When the request succeeds with a 2xx status and a body that
    parses, fetchProgramaCuratorial resolves with the parsed value as it
    is, array or not, and writes no error; it writes the value to the
    console exactly when window.KAUKA_DEBUG is set. fetchArtists does
    the same with the flag off, and with the flag on for every value but
    null, logging the value's length. *)
Theorem fetchers_resolve_with_parsed_body
    (fetch : string -> Promise Response) (w : Window) (baseURL : option string)
    (con : Console) (response : Response) (data : json)
    (Hok : 200 <= status response <= 299)
    (Hbody : json_body response = Fulfilled data) :
  (fetch (default "" baseURL +:+ "/programa-curatorial/index.json") = Fulfilled response ->
   fetchProgramaCuratorial fetch w baseURL con
   = (Fulfilled data,
      if KAUKA_DEBUG w
      then con ++ [mkEntry "log" [AStr "Programa Curatorial data:"; AJson data]]
      else con))
  /\ (fetch (default "" baseURL +:+ "/artistas/index.json") = Fulfilled response ->
      KAUKA_DEBUG w = false ->
      fetchArtists fetch w baseURL con = (Fulfilled data, con))
  /\ (fetch (default "" baseURL +:+ "/artistas/index.json") = Fulfilled response ->
      KAUKA_DEBUG w = true -> data <> JNull ->
      exists len,
        data_length data = inr len
        /\ fetchArtists fetch w baseURL con
           = (Fulfilled data,
              con ++ [mkEntry "log"
                        [ATemplate [AStr "Found "; interpolated len;
                                    AStr " artists with image galleries"]]])).
Proof.
  split; [| split].
  - intros Hnet. unfold fetchProgramaCuratorial. cbn zeta. rewrite Hnet.
    cbn [then_]. rewrite (check_ok_accepts _ _ Hok), Hbody. cbn [then_ catch_].
    destruct (KAUKA_DEBUG w); reflexivity.
  - intros Hnet Hoff. unfold fetchArtists. cbn zeta. rewrite Hnet.
    cbn [then_]. rewrite (check_ok_accepts _ _ Hok), Hbody. cbn [then_].
    rewrite Hoff. reflexivity.
  - intros Hnet Hon Hdata. unfold fetchArtists. cbn zeta. rewrite Hnet.
    cbn [then_]. rewrite (check_ok_accepts _ _ Hok), Hbody. cbn [then_].
    rewrite Hon.
    destruct data; try contradiction; cbn [data_length]; eexists; split; reflexivity.
Qed.

(** X6. With window.KAUKA_DEBUG set, a successful response whose body
    is the JSON value null makes fetchArtists resolve with the empty
    array and report a TypeError, as if the request had failed;
    fetchProgramaCuratorial resolves the same response with null. *)
Theorem fetchArtists_null_body_counts_as_failure
    (fetch : string -> Promise Response) (w : Window) (baseURL : option string)
    (con : Console) (response : Response)
    (Hdebug : KAUKA_DEBUG w = true)
    (Hok : 200 <= status response <= 299)
    (Hbody : json_body response = Fulfilled JNull) :
  (fetch (default "" baseURL +:+ "/artistas/index.json") = Fulfilled response ->
   fetchArtists fetch w baseURL con
   = (Fulfilled (JArr []),
      con ++ [mkEntry "error"
                [AStr "Error fetching artists data:";
                 AErr (mkError "TypeError"
                         "Cannot read properties of null (reading 'length')")]]))
  /\ (fetch (default "" baseURL +:+ "/programa-curatorial/index.json") = Fulfilled response ->
      fst (fetchProgramaCuratorial fetch w baseURL con) = Fulfilled JNull).
Proof.
  split.
  - intros Hnet. unfold fetchArtists. cbn zeta. rewrite Hnet.
    cbn [then_]. rewrite (check_ok_accepts _ _ Hok), Hbody. cbn [then_].
    rewrite Hdebug. reflexivity.
  - intros Hnet.
    destruct (fetchers_resolve_with_parsed_body fetch w baseURL con response JNull
                Hok Hbody) as [Hp _].
    rewrite (Hp Hnet). reflexivity.
Qed.

(** X7. A failed request is reported once, with its reason: the
    console gains one call of console.error whose second argument is
    the transport's rejection reason, an Error reading
    "HTTP error! status: N" for a status N outside 200..299, or the
    reason the body failed to parse. While the request or the body is
    pending, the promise is pending and the console untouched. *)
Theorem fetchArtists_reports_failure_once
    (fetch : string -> Promise Response) (w : Window) (baseURL : option string)
    (con : Console) :
  (forall e,
     fetch (default "" baseURL +:+ "/artistas/index.json") = Rejected e ->
     fetchArtists fetch w baseURL con
     = (Fulfilled (JArr []),
        con ++ [mkEntry "error" [AStr "Error fetching artists data:"; AErr e]]))
  /\ (forall response,
        fetch (default "" baseURL +:+ "/artistas/index.json") = Fulfilled response ->
        ~ (200 <= status response <= 299) ->
        fetchArtists fetch w baseURL con
        = (Fulfilled (JArr []),
           con ++ [mkEntry "error"
                     [AStr "Error fetching artists data:";
                      AErr (mkError "Error"
                              ("HTTP error! status: " +:+ Z_to_string (status response)))]]))
  /\ (forall response e,
        fetch (default "" baseURL +:+ "/artistas/index.json") = Fulfilled response ->
        200 <= status response <= 299 ->
        json_body response = Rejected e ->
        fetchArtists fetch w baseURL con
        = (Fulfilled (JArr []),
           con ++ [mkEntry "error" [AStr "Error fetching artists data:"; AErr e]]))
  /\ (fetch (default "" baseURL +:+ "/artistas/index.json") = Pending ->
      fetchArtists fetch w baseURL con = (Pending, con))
  /\ (forall response,
        fetch (default "" baseURL +:+ "/artistas/index.json") = Fulfilled response ->
        200 <= status response <= 299 ->
        json_body response = Pending ->
        fetchArtists fetch w baseURL con = (Pending, con)).
Proof.
  unfold fetchArtists. cbn zeta. repeat split.
  - intros e ->. reflexivity.
  - intros response -> Hbad. cbn [then_]. rewrite (check_ok_refuses _ _ Hbad). reflexivity.
  - intros response e -> Hok Hbody. cbn [then_].
    rewrite (check_ok_accepts _ _ Hok), Hbody. reflexivity.
  - intros ->. reflexivity.
  - intros response -> Hok Hbody. cbn [then_].
    rewrite (check_ok_accepts _ _ Hok), Hbody. reflexivity.
Qed.


Lemma fetchers_resolve_with_parsed_body_witness :
  fetchArtists network_up (page_debug false) None []
  = (Fulfilled (JArr [JObj [("name", JStr "Obra")]]), []).
Proof.
  assert (Hok : 200 <= status response_artists <= 299) by (simpl; lia).
  destruct (fetchers_resolve_with_parsed_body network_up (page_debug false) None []
              response_artists (JArr [JObj [("name", JStr "Obra")]]) Hok eq_refl)
    as (_ & Hoff & _).
  apply Hoff; reflexivity.
Defined.

Lemma fetchArtists_null_body_counts_as_failure_witness :
  fst (fetchArtists network_null page_after_init None []) = Fulfilled (JArr [])
  /\ fst (fetchProgramaCuratorial network_null page_after_init None []) = Fulfilled JNull.
Proof.
  assert (Hok : 200 <= status response_null <= 299) by (simpl; lia).
  destruct (fetchArtists_null_body_counts_as_failure network_null page_after_init None []
              response_null eq_refl Hok eq_refl) as [Ha Hp].
  split.
  - rewrite Ha; reflexivity.
  - apply Hp. reflexivity.
Defined.

Lemma fetchArtists_reports_failure_once_witness :
  fetchArtists network_down (page_debug false) (Some "https://kauka.example") []
  = (Fulfilled (JArr []),
     [mkEntry "error" [AStr "Error fetching artists data:";
                       AErr (mkError "TypeError" "Failed to fetch")]]).
Proof.
  apply (fetchArtists_reports_failure_once network_down (page_debug false)
           (Some "https://kauka.example") []).
  reflexivity.
Defined.


(** ** The gallery, continued *)





(** X10. A gallery rendered with two or more slides shows both arrows
    (their style carries no display:none) and starts a slideshow on the
    first slide, its track unmoved and a click listener on each arrow. *)
Theorem renderArtistGallery_enables_navigation
    (w : Window) (con : Console) (doc : gmap string (option Gallery))
    (artist : Artist) (containerId : string) (maxImages : option Z)
    (content : option Gallery)
    (Hcontainer : doc !! containerId = Some content)
    (Hmany : (2 <= length (slice0 (imagenes artist) (default 6%Z maxImages)))%nat) :
  exists g : Gallery,
    fst (renderArtistGallery w con doc artist containerId maxImages) !! containerId
    = Some (Some g)
    /\ prev_style (dom g) = "pointer-events: auto !important; "
    /\ next_style (dom g) = "pointer-events: auto !important; "
    /\ slideshow g
       = Some (mkSlideshow
                 (Z.of_nat (length (slice0 (imagenes artist) (default 6 maxImages))))
                 0 (Some Unmoved) true true).
Proof.
  unfold renderArtistGallery. rewrite Hcontainer. cbn zeta. cbn [fst].
  set (n := Z.of_nat (length (slice0 (imagenes artist) (default 6 maxImages)))).
  assert (Hn : (n <=? 1) = false) by (apply Z.leb_gt; lia).
  eexists. split; [apply lookup_insert_eq |].
  cbn [dom prev_style next_style slideshow].
  unfold arrow_style, initializeSlideshow. rewrite Hn. repeat split.
Qed.

(** X11. nextSlide and prevSlide undo each other: on a slideshow with
    a valid index, either one followed by the other leaves the index
    where it was, with or without the animation engine. *)
Theorem nextSlide_prevSlide_inverse (w1 w2 : Window) (s : Slideshow)
    (Hc : 0 <= currentSlide s < totalSlides s) :
  currentSlide (fst (prevSlide w2 (fst (nextSlide w1 s)))) = currentSlide s
  /\ currentSlide (fst (nextSlide w2 (fst (prevSlide w1 s)))) = currentSlide s.
Proof.
  assert (HN : 0 < totalSlides s) by lia.
  pose proof (proj2 (goToSlide_index w1 (Z.rem (currentSlide s + 1) (totalSlides s)) s)) as Ht1.
  pose proof (proj2 (goToSlide_index w1
                       (Z.rem (currentSlide s - 1 + totalSlides s) (totalSlides s)) s)) as Ht2.
  fold (nextSlide w1 s) in Ht1. fold (prevSlide w1 s) in Ht2.
  pose proof (nextSlide_index w1 s HN (proj1 Hc)) as Hn.
  pose proof (prevSlide_index w1 s HN (proj1 Hc)) as Hp.
  pose proof (Z.mod_pos_bound (currentSlide s + 1) (totalSlides s) HN) as Hbn.
  pose proof (Z.mod_pos_bound (currentSlide s - 1) (totalSlides s) HN) as Hbp.
  split.
  - rewrite prevSlide_index; rewrite ?Ht1, ?Hn; try lia.
    rewrite Zminus_mod_idemp_l.
    replace (currentSlide s + 1 - 1) with (currentSlide s) by lia.
    apply Z.mod_small. exact Hc.
  - rewrite nextSlide_index; rewrite ?Ht2, ?Hp; try lia.
    rewrite Zplus_mod_idemp_l.
    replace (currentSlide s - 1 + 1) with (currentSlide s) by lia.
    apply Z.mod_small. exact Hc.
Qed.

Lemma nextSlide_prevSlide_inverse_witness :
  currentSlide (fst (prevSlide desktop (fst (nextSlide (width 1024) five_slides)))) = 0
  /\ currentSlide (fst (nextSlide desktop (fst (prevSlide (width 1024) five_slides)))) = 0.
Proof.
  apply (nextSlide_prevSlide_inverse (width 1024) desktop five_slides).
  simpl. lia.
Defined.

(** X12. Moving to a valid slide of a slideshow that has a track never
    throws and places the track at -index * (100 / N) percent, through
    the animation engine when it is loaded and through the transform
    style otherwise. The offset is 0 on the first slide and always lies
    in (-100, 0]: the track is never pushed out by its full width. *)
Theorem goToSlide_offset_bounds (w : Window) (i : Z) (s : Slideshow) (t : TrackMove)
    (Htrack : track s = Some t)
    (Hi : 0 <= i < totalSlides s) :
  exists x : Q,
    goToSlide w i s
    = (mkSlideshow (totalSlides s) i
         (Some (if gsap w then GsapTo x else StyleTransform x))
         (nextListener s) (prevListener s), None)
    /\ (x == - inject_Z i * (100 / inject_Z (totalSlides s)))%Q
    /\ (i = 0 -> (x == 0)%Q)
    /\ (- (100) < x)%Q /\ (x <= 0)%Q.
Proof.
  exists (- inject_Z i * (100 / inject_Z (totalSlides s)))%Q.
  split; [| split; [reflexivity |]].
  - unfold goToSlide. cbn zeta. rewrite Htrack. destruct (gsap w); reflexivity.
  - destruct (totalSlides s) as [| p | p] eqn:HN; try lia.
    split; [intros ->; reflexivity |].
    unfold Qlt, Qle, Qdiv, Qmult, Qinv, Qopp, inject_Z. cbn. split; nia.
Qed.

Lemma goToSlide_offset_bounds_witness :
  exists x : Q,
    goToSlide (width 1024) 2 five_slides
    = (mkSlideshow 5 2 (Some (StyleTransform x)) true true, None)
    /\ (- (100) < x)%Q /\ (x <= 0)%Q.
Proof.
  destruct (goToSlide_offset_bounds (width 1024) 2 five_slides Unmoved eq_refl)
    as (x & Hgo & _ & _ & Hlo & Hhi); [simpl; lia |].
  exists x. split; [exact Hgo | split; [exact Hlo | exact Hhi]].
Defined.



Lemma renderArtistGallery_enables_navigation_witness :
  exists g : Gallery,
    fst (renderArtistGallery (width 1024) [] page_gallery artist_two_images
           "home-artistas-galeria" None) !! "home-artistas-galeria" = Some (Some g)
    /\ prev_style (dom g) = "pointer-events: auto !important; "
    /\ next_style (dom g) = "pointer-events: auto !important; "
    /\ slideshow g = Some (mkSlideshow 2 0 (Some Unmoved) true true).
Proof.
  apply (renderArtistGallery_enables_navigation (width 1024) [] page_gallery
           artist_two_images "home-artistas-galeria" None None).
  - reflexivity.
  - simpl. lia.
Defined.


(** ** The horizontal scroll controller, continued *)

(** What initHorizontalScroll can do to the engine calls. *)
Lemma initHorizontalScroll_engine (w : Window) (p : ScrollPage) (calls : list EngineCall) :
  (fst (fst (initHorizontalScroll w p calls)) = None
   /\ snd (initHorizontalScroll w p calls) = calls)
  \/ (fst (fst (initHorizontalScroll w p calls)) = Some (mkHandle (length (calls ++ [CreateTween])))
      /\ snd (initHorizontalScroll w p calls)
         = (calls ++ [CreateTween]) ++ [CreateTrigger (length (calls ++ [CreateTween]))]).
Proof.
  unfold initHorizontalScroll.
  destruct (768 <=? innerWidth w); [left; split; reflexivity |]. cbn zeta.
  destruct (gsap w); cbn [negb]; [| left; split; reflexivity].
  destruct (ScrollTrigger w); cbn [negb]; [| left; split; reflexivity].
  destruct (has_container p) eqn:Hc; cbn [negb has_container has_scrollable];
    rewrite ?Hc; cbn [negb]; [| left; split; reflexivity].
  destruct (has_scrollable p); cbn [negb]; [right | left]; split; reflexivity.
Qed.

(** X14. initHorizontalScroll returns a handle exactly when the
    viewport is narrower than 768 (the breakpoints all and sm) and the
    animation engine, its scroll plugin, the trigger element and the
    scrollable element are all there. Without a handle it makes no
    engine call. From 768 up it changes nothing at all; below, it sets
    the min-height of an existing trigger element to the viewport
    height less the header's, whether or not a handle results. *)
Theorem initHorizontalScroll_handle_iff (w : Window) (p : ScrollPage)
    (calls : list EngineCall) :
  (is_Some (fst (fst (initHorizontalScroll w p calls)))
   <-> innerWidth w < 768 /\ gsap w = true /\ ScrollTrigger w = true
       /\ has_container p = true /\ has_scrollable p = true)
  /\ (innerWidth w < 768 <-> getBreakpoint w = "all" \/ getBreakpoint w = "sm")
  /\ (fst (fst (initHorizontalScroll w p calls)) = None ->
      snd (initHorizontalScroll w p calls) = calls)
  /\ (768 <= innerWidth w -> initHorizontalScroll w p calls = (None, p, calls))
  /\ (innerWidth w < 768 -> has_container p = true ->
      container_minHeight (snd (fst (initHorizontalScroll w p calls)))
      = Some ("calc(100vh - " +:+ Z_to_string (default 0 (headerHeight p)) +:+ "px)")).
Proof.
  split; [| split; [| split; [| split]]].
  - unfold initHorizontalScroll.
    destruct (Z.leb_spec 768 (innerWidth w)) as [Hw | Hw].
    { cbn. split; [intros [h Hh]; discriminate | lia]. }
    cbn zeta.
    destruct (gsap w); cbn [negb];
      [| cbn; split; [intros [h Hh]; discriminate | intuition discriminate]].
    destruct (ScrollTrigger w); cbn [negb];
      [| cbn; split; [intros [h Hh]; discriminate | intuition discriminate]].
    destruct (has_container p) eqn:Hc; cbn [negb has_container has_scrollable];
      rewrite ?Hc; cbn [negb];
      [| cbn; split; [intros [h Hh]; discriminate | intuition discriminate]].
    destruct (has_scrollable p); cbn [negb]; cbn;
      split; try (intros [h Hh]; discriminate); try (intuition discriminate).
    intros _. repeat split; auto.
  - breakpoint_cases; split; intros; try lia; try (left; reflexivity);
      try (right; reflexivity); intuition discriminate.
  - intros Hnone. destruct (initHorizontalScroll_engine w p calls) as [[_ He] | [Hh _]];
      [exact He | congruence].
  - intros Hw. unfold initHorizontalScroll.
    destruct (Z.leb_spec 768 (innerWidth w)); [reflexivity | lia].
  - intros Hw Hc. unfold initHorizontalScroll.
    destruct (Z.leb_spec 768 (innerWidth w)); [lia |]. cbn zeta. rewrite Hc.
    destruct (gsap w), (ScrollTrigger w), (has_scrollable p); reflexivity.
Qed.

Lemma initHorizontalScroll_handle_iff_witness :
  is_Some (fst (fst (initHorizontalScroll phone page_componentes [])))
  /\ initHorizontalScroll desktop page_componentes [] = (None, page_componentes, [])
  /\ container_minHeight (snd (fst (initHorizontalScroll phone_no_engine page_componentes [])))
     = Some "calc(100vh - 64px)".
Proof.
  destruct (initHorizontalScroll_handle_iff phone page_componentes [])
    as (Hiff & _ & _ & _ & _).
  destruct (initHorizontalScroll_handle_iff desktop page_componentes [])
    as (_ & _ & _ & Hwide & _).
  destruct (initHorizontalScroll_handle_iff phone_no_engine page_componentes [])
    as (_ & _ & _ & _ & Hmin).
  split; [apply Hiff; cbn; repeat split; lia |].
  split; [apply Hwide; cbn; lia |].
  apply Hmin; [cbn; lia | reflexivity].
Defined.

Lemma last_created_app (cs1 cs2 : list EngineCall) :
  last_created (cs1 ++ cs2)
  = match last_created cs2 with
    | Some h => Some h
    | None => last_created cs1
    end.
Proof.
  unfold last_created. rewrite foldl_app.
  generalize (foldl (fun acc call =>
                       match call with
                       | CreateTrigger serial => Some (mkHandle serial)
                       | _ => acc
                       end) None cs1) as acc.
  induction cs2 as [| c cs2 IH] using rev_ind; intros acc; [destruct acc; reflexivity |].
  rewrite !foldl_app. cbn [foldl]. destruct c; try reflexivity; apply IH.
Qed.

Lemma handleHorizontalScroll_sound (c : Controller) :
  controller_sound c -> controller_sound (handleHorizontalScroll c).
Proof.
  intros [He Hg]. unfold handleHorizontalScroll. cbn zeta.
  destruct (horizontalScroll c) as [h |] eqn:Hh.
  - destruct (768 <=? innerWidth (win c)).
    + constructor; cbn.
      * unfold kill. rewrite replay_app, He. cbn.
        rewrite bool_decide_eq_true_2; reflexivity.
      * unfold kill. rewrite last_created_app. exact Hg.
    + constructor; [rewrite Hh; exact He | exact Hg].
  - destruct (768 <=? innerWidth (win c)); cbn [negb].
    + constructor; [rewrite Hh; exact He | exact Hg].
    + destruct (initHorizontalScroll (win c) (page c) (engine c)) as [[created p'] e'] eqn:Hinit.
      pose proof (initHorizontalScroll_engine (win c) (page c) (engine c)) as Hcases.
      rewrite Hinit in Hcases. cbn [fst snd] in Hcases.
      destruct Hcases as [[-> ->] | [-> ->]]; constructor; cbn.
      * exact He.
      * exact Hg.
      * rewrite !replay_app, He. reflexivity.
      * rewrite last_created_app. reflexivity.
Qed.

Lemma scroll_run_sound (evs : list ScrollEvent) (c : Controller) :
  controller_sound c -> controller_sound (scroll_run c evs).
Proof.
  revert c. unfold scroll_run.
  induction evs as [| ev evs IH]; intros c Hs; [exact Hs |].
  cbn [foldl]. apply IH. destruct ev as [width |]; cbn [scroll_step].
  - destruct Hs. constructor; assumption.
  - destruct (resizeTimeout c); [| exact Hs].
    apply handleHorizontalScroll_sound. destruct Hs. constructor; assumption.
Qed.

(** X15. In every environment, with or without the engine and the
    elements, the controller set up by initHomeHorizontalScroll keeps
    its engine calls sound through any resizes and timer firings: never
    a trigger created while another is alive, never a kill of a trigger
    that is not alive, and the triggers alive are exactly the handle's.
    The global window.homeHorizontalScroll is never cleared: it is
    always the handle created last, also after that handle was killed
    and the controller's own variable reset to null. *)
Theorem horizontal_scroll_engine_sound
    (loading : bool) (w0 : Window) (page0 : ScrollPage) (c0 : Controller)
    (evs : list ScrollEvent)
    (Hinit : initHomeHorizontalScroll loading w0 page0 = Some c0) :
  replay [] (engine (scroll_run c0 evs))
  = Some (alive_of (horizontalScroll (scroll_run c0 evs)))
  /\ homeHorizontalScroll (scroll_run c0 evs) = last_created (engine (scroll_run c0 evs))
  /\ (forall h, horizontalScroll (scroll_run c0 evs) = Some h ->
                homeHorizontalScroll (scroll_run c0 evs) = Some h)
  /\ (forall serial, CreateTrigger serial ∈ engine (scroll_run c0 evs) ->
                     homeHorizontalScroll (scroll_run c0 evs) <> None).
Proof.
  unfold initHomeHorizontalScroll in Hinit. destruct loading; [discriminate |].
  injection Hinit as <-.
  assert (Hs0 : controller_sound (mkController None false None w0 page0 []))
    by (constructor; reflexivity).
  pose proof (scroll_run_sound evs _ (handleHorizontalScroll_sound _ Hs0)) as [He Hg].
  set (c := scroll_run _ evs) in *.
  split; [exact He |]. split; [exact Hg |]. split.
  - intros h Hh. rewrite Hh in He. cbn in He. rewrite Hg.
    clear Hg. revert He. generalize (engine c) as calls.
    intros calls. unfold last_created.
    assert (Hgen : forall alive acc,
              (alive = alive_of acc \/ alive = []) ->
              replay alive calls = Some [scrollTrigger h] ->
              foldl (fun acc call =>
                       match call with
                       | CreateTrigger serial => Some (mkHandle serial)
                       | _ => acc
                       end) acc calls = Some h).
    { induction calls as [| call calls IH]; intros alive acc Hrel Hrep.
      - cbn in *. injection Hrep as ->.
        destruct Hrel as [Hrel | Hrel]; [| discriminate].
        destruct acc as [[n] |]; [| discriminate].
        destruct h as [m]. cbn in Hrel. congruence.
      - destruct call as [| n | n]; cbn [foldl replay] in *.
        + eapply IH; eassumption.
        + destruct alive; [| discriminate].
          eapply (IH [n] (Some (mkHandle n))); [left; reflexivity | exact Hrep].
        + case_bool_decide; [| discriminate].
          eapply (IH [] acc); [right; reflexivity | exact Hrep]. }
    apply (Hgen [] None). left; reflexivity.
  - intros serial Hin. rewrite Hg. clear He Hg.
    apply list_elem_of_split in Hin as (l1 & l2 & ->).
    rewrite last_created_app.
    destruct (last_created (CreateTrigger serial :: l2)) eqn:Hl; [discriminate |].
    exfalso. change (CreateTrigger serial :: l2) with ([CreateTrigger serial] ++ l2) in Hl.
    rewrite last_created_app in Hl. destruct (last_created l2); discriminate.
Qed.

Lemma horizontal_scroll_engine_sound_witness :
  horizontalScroll
    (scroll_run (handleHorizontalScroll (mkController None false None phone page_componentes []))
       [Resize 1000; TimerFires]) = None
  /\ homeHorizontalScroll
       (scroll_run (handleHorizontalScroll (mkController None false None phone page_componentes []))
          [Resize 1000; TimerFires]) = Some (mkHandle 1).
Proof.
  destruct (horizontal_scroll_engine_sound false phone page_componentes
              (handleHorizontalScroll (mkController None false None phone page_componentes []))
              [Resize 1000; TimerFires] eq_refl) as (_ & Hglobal & _).
  split; [reflexivity | rewrite Hglobal; reflexivity].
Defined.

(** The handle is not created where something it needs is missing. *)
Lemma handleHorizontalScroll_unavailable (c : Controller) :
  gsap (win c) = false \/ ScrollTrigger (win c) = false
  \/ has_container (page c) = false \/ has_scrollable (page c) = false ->
  horizontalScroll c = None ->
  horizontalScroll (handleHorizontalScroll c) = None
  /\ engine (handleHorizontalScroll c) = engine c
  /\ homeHorizontalScroll (handleHorizontalScroll c) = homeHorizontalScroll c
  /\ win (handleHorizontalScroll c) = win c
  /\ has_container (page (handleHorizontalScroll c)) = has_container (page c)
  /\ has_scrollable (page (handleHorizontalScroll c)) = has_scrollable (page c)
  /\ resizeTimeout (handleHorizontalScroll c) = resizeTimeout c.
Proof.
  intros Hlack Hnone. unfold handleHorizontalScroll. rewrite Hnone. cbn zeta.
  destruct (768 <=? innerWidth (win c)) eqn:Hw; cbn [negb]; [rewrite Hnone; tauto |].
  unfold initHorizontalScroll. rewrite Hw. cbn zeta.
  destruct (gsap (win c)), (ScrollTrigger (win c)), (has_container (page c)) eqn:Hc,
    (has_scrollable (page c)) eqn:Hs;
    cbn; rewrite ?Hc, ?Hs; cbn; try tauto;
    destruct Hlack as [H | [H | [H | H]]]; discriminate.
Qed.

(** X16. Where the animation engine, its scroll plugin, the trigger
    element or the scrollable element is missing, the controller never
    gets a handle, whatever the widths: through any resizes and timer
    firings the handle stays null, the global reference stays unset and
    no engine call is ever made. *)
Theorem horizontal_scroll_unavailable
    (loading : bool) (w0 : Window) (page0 : ScrollPage) (c0 : Controller)
    (evs : list ScrollEvent)
    (Hlack : gsap w0 = false \/ ScrollTrigger w0 = false
             \/ has_container page0 = false \/ has_scrollable page0 = false)
    (Hinit : initHomeHorizontalScroll loading w0 page0 = Some c0) :
  horizontalScroll (scroll_run c0 evs) = None
  /\ homeHorizontalScroll (scroll_run c0 evs) = None
  /\ engine (scroll_run c0 evs) = [].
Proof.
  unfold initHomeHorizontalScroll in Hinit. destruct loading; [discriminate |].
  injection Hinit as <-.
  set (lacking := fun c : Controller =>
         (gsap (win c) = false \/ ScrollTrigger (win c) = false
          \/ has_container (page c) = false \/ has_scrollable (page c) = false)
         /\ horizontalScroll c = None /\ homeHorizontalScroll c = None /\ engine c = []).
  assert (Hstep : forall c, lacking c -> lacking (handleHorizontalScroll c)).
  { intros c (Hl & Hh & Hg & He).
    destruct (handleHorizontalScroll_unavailable c Hl Hh)
      as (Hh' & He' & Hg' & Hw' & Hc' & Hs' & _).
    unfold lacking. rewrite Hh', He', Hg', Hw', Hc', Hs'. tauto. }
  assert (Hrun : forall evs c, lacking c -> lacking (scroll_run c evs)).
  { unfold scroll_run. induction evs0 as [| ev evs0 IH]; intros c Hc; [exact Hc |].
    cbn [foldl]. apply IH. destruct ev as [width |]; cbn [scroll_step].
    - exact Hc.
    - destruct (resizeTimeout c); [| exact Hc]. apply Hstep. exact Hc. }
  assert (H0 : lacking (mkController None false None w0 page0 [])) by (unfold lacking; cbn; tauto).
  destruct (Hrun evs _ (Hstep _ H0)) as (_ & Hh & Hg & He). tauto.
Qed.

Lemma horizontal_scroll_unavailable_witness :
  horizontalScroll
    (scroll_run (handleHorizontalScroll
                   (mkController None false None phone_no_engine page_componentes []))
       [Resize 1000; TimerFires; Resize 320; TimerFires]) = None
  /\ homeHorizontalScroll
       (scroll_run (handleHorizontalScroll
                      (mkController None false None phone_no_engine page_componentes []))
          [Resize 1000; TimerFires; Resize 320; TimerFires]) = None
  /\ engine
       (scroll_run (handleHorizontalScroll
                      (mkController None false None phone_no_engine page_componentes []))
          [Resize 1000; TimerFires; Resize 320; TimerFires]) = [].
Proof.
  apply (horizontal_scroll_unavailable false phone_no_engine page_componentes).
  - left. reflexivity.
  - reflexivity.
Defined.




(** ** The calendar title, continued *)

(** X18. updateTitle is a silent no-op on the document when the
    selector matches no element, whatever the view, and when the view
    is neither the week list nor the month list: the calendar's own
    title stands and no day header is touched. *)
Theorem updateTitle_leaves_document (w : Window) (con : Console)
    (doc : AgendaDocument) (element : string) (view : View) :
  (innerHTML doc !! element = None ->
   fst (updateTitle w con doc element view) = doc)
  /\ (type view <> "listWeek" -> type view <> "listMonth" ->
      fst (updateTitle w con doc element view) = doc).
Proof.
  unfold updateTitle. cbn zeta. split.
  - intros ->. reflexivity.
  - intros Hweek Hmonth.
    destruct (innerHTML doc !! element); [| reflexivity].
    destruct (String.eqb_spec (type view) "listWeek"); [contradiction |].
    destruct (String.eqb_spec (type view) "listMonth"); [contradiction |].
    reflexivity.
Qed.

Lemma updateTitle_leaves_document_witness :
  fst (updateTitle (page_debug true) [] agenda_page ".fc-toolbar-title"
         (mkView "listDay" (mkDate 2025 5 5) (mkDate 2025 5 6))) = agenda_page
  /\ fst (updateTitle (page_debug true) [] agenda_page ".fc-title"
            (week_view (mkDate 2025 5 5) (mkDate 2025 5 11))) = agenda_page.
Proof.
  destruct (updateTitle_leaves_document (page_debug true) [] agenda_page ".fc-toolbar-title"
              (mkView "listDay" (mkDate 2025 5 5) (mkDate 2025 5 6))) as [_ Hother].
  destruct (updateTitle_leaves_document (page_debug true) [] agenda_page ".fc-title"
              (week_view (mkDate 2025 5 5) (mkDate 2025 5 11))) as [Hmissing _].
  split.
  - apply Hother; discriminate.
  - apply Hmissing. reflexivity.
Defined.

(** X19. In the month-list view, when the title element exists,
    updateTitle replaces its markup by one block holding the Spanish
    name of the month of the view's start; the view's end plays no
    part, and the day headers keep their colspan. *)
Theorem updateTitle_month_list_title (w : Window) (con : Console)
    (doc : AgendaDocument) (element : string) (start end_ : JsDate) (old : string)
    (Htitle : innerHTML doc !! element = Some old) :
  fst (updateTitle w con doc element (mkView "listMonth" start end_))
  = mkAgendaDocument
      (<[element := indent +:+ div "agenda-month" (toFormat_LLLL (fromJSDate_es start))]>
         (innerHTML doc))
      (colspans doc).
Proof.
  unfold updateTitle. cbn zeta. cbn [type currentStart currentEnd]. rewrite Htitle.
  change (String.eqb "listMonth" "listWeek") with false.
  change (String.eqb "listMonth" "listMonth") with true. cbn iota. cbn [fst].
  rewrite insert_insert_eq. reflexivity.
Qed.

Lemma updateTitle_month_list_title_witness :
  innerHTML (fst (updateTitle (page_debug false) [] agenda_page ".fc-toolbar-title"
                    (mkView "listMonth" (mkDate 2025 9 1) (mkDate 2025 10 1))))
    !! ".fc-toolbar-title"
  = Some (indent +:+ div "agenda-month" "septiembre").
Proof.
  rewrite (updateTitle_month_list_title (page_debug false) [] agenda_page ".fc-toolbar-title"
             (mkDate 2025 9 1) (mkDate 2025 10 1) "5 - 11 de mayo de 2025" eq_refl).
  reflexivity.
Defined.



(** X21. updateTitle writes to the console through the Debug utility
    only. With window.KAUKA_CONFIG.debug not true the console is left
    as it was. With it true the view type is logged first, also when
    there is no title element, and in the week-list view with a title
    element three more entries follow: the start, the end and whether
    they share a month. *)
Theorem updateTitle_console_gated (w : Window) (con : Console)
    (doc : AgendaDocument) (element : string) (view : View) :
  (Debug.isEnabled (Some w) = false -> snd (updateTitle w con doc element view) = con)
  /\ (Debug.isEnabled (Some w) = true ->
      snd (updateTitle w con doc element view)
      = con
        ++ [mkEntry "log" [ATemplate [AStr "[Agenda] current view type: "; AStr (type view)]]]
        ++ (if bool_decide (is_Some (innerHTML doc !! element))
               && String.eqb (type view) "listWeek"
            then
              [mkEntry "info" [ATemplate [AStr "[Agenda] current week start: ";
                                          ADate (currentStart view)]];
               mkEntry "info" [ATemplate [AStr "[Agenda] current week end: ";
                                          ADate (currentEnd view)]];
               mkEntry "info"
                 [ATemplate [AStr "[Agenda] isSameMonth: ";
                             AJson (JBool (hasSame_month (fromJSDate_es (currentStart view))
                                             (fromJSDate_es (currentEnd view))))]]]
            else [])).
Proof.
  unfold updateTitle. cbn zeta. unfold Debug.log, Debug.info. split.
  - intros Hoff. rewrite !(debugLog_disabled _ _ _ _ _ Hoff).
    destruct (innerHTML doc !! element); [| reflexivity].
    destruct (String.eqb (type view) "listWeek"), (String.eqb (type view) "listMonth");
      reflexivity.
  - intros Hon. rewrite !(debugLog_enabled _ _ _ _ _ Hon).
    rewrite !bool_decide_eq_true_2
      by (apply list_elem_of_In; cbn; tauto).
    destruct (innerHTML doc !! element) as [old |] eqn:Hel.
    + rewrite bool_decide_eq_true_2 by eauto. cbn [andb].
      destruct (String.eqb (type view) "listWeek"), (String.eqb (type view) "listMonth");
        cbn [snd]; rewrite <- ?app_assoc; reflexivity.
    + rewrite bool_decide_eq_false_2 by (intros [x Hx]; discriminate). reflexivity.
Qed.

Lemma updateTitle_console_gated_witness :
  snd (updateTitle (page_debug false) [] agenda_page ".fc-toolbar-title"
         (week_view (mkDate 2025 5 5) (mkDate 2025 5 11))) = []
  /\ length (snd (updateTitle (page_debug true) [] agenda_page ".fc-toolbar-title"
                    (week_view (mkDate 2025 5 5) (mkDate 2025 5 11)))) = 4%nat.
Proof.
  destruct (updateTitle_console_gated (page_debug false) [] agenda_page ".fc-toolbar-title"
              (week_view (mkDate 2025 5 5) (mkDate 2025 5 11))) as [Hoff _].
  destruct (updateTitle_console_gated (page_debug true) [] agenda_page ".fc-toolbar-title"
              (week_view (mkDate 2025 5 5) (mkDate 2025 5 11))) as [_ Hon].
  split.
  - apply Hoff. reflexivity.
  - rewrite Hon by reflexivity. reflexivity.
Defined.

(** ** The background positioner *)

Lemma elements_present_guard (s : HomeSection) :
  elements_present s ->
  negb (has_homeImg s) || negb (bool_decide (is_Some (sectionBgImg s))) = false.
Proof.
  intros [Hh Hb]. rewrite Hh, bool_decide_eq_true_2 by exact Hb. reflexivity.
Qed.

(** X22. positionSectionBackground writes the background's position
    at once only when both elements exist and #home-img has no visible
    image. When an element is missing it changes nothing. When there is
    a visible image it never writes the style itself: for an image that
    is complete and has a natural height, or is complete and has .svg in
    its src, it starts one timeout; for any other image, an SVG that is
    not complete included, it attaches one listener to that image. *)
Theorem positionSectionBackground_cases (s : HomeSection) :
  (has_homeImg s = false \/ sectionBgImg s = None -> positionSectionBackground s = s)
  /\ (elements_present s -> visibleImg s = None ->
      positionSectionBackground s
      = mkHomeSection (has_homeImg s) None
          (Some (mkBgStyle (Some (rect_bottom s + scrollY s)%Q) (Some "1")))
          (rect_bottom s) (scrollY s) (timeouts s) (onLoad s))
  /\ (forall img, elements_present s -> visibleImg s = Some img ->
        sectionBgImg (positionSectionBackground s) = sectionBgImg s
        /\ (complete img = true
            /\ (naturalHeight img <> 0 \/ includes ".svg" (image_src img) = true) ->
            timeouts (positionSectionBackground s) = S (timeouts s)
            /\ onLoad (positionSectionBackground s) = onLoad s)
        /\ (complete img = false
            \/ (naturalHeight img = 0 /\ includes ".svg" (image_src img) = false) ->
            timeouts (positionSectionBackground s) = timeouts s
            /\ onLoad (positionSectionBackground s) = onLoad s ++ [image_id img])).
Proof.
  split; [| split].
  - intros [Hh | Hb]; unfold positionSectionBackground.
    + rewrite Hh. reflexivity.
    + rewrite Hb. rewrite bool_decide_eq_false_2 by (intros [x Hx]; discriminate).
      rewrite orb_true_r. reflexivity.
  - intros Hel Hvis. unfold positionSectionBackground.
    rewrite (elements_present_guard s Hel), Hvis. unfold calculatePosition.
    destruct Hel as [_ [b Hb]]. rewrite Hb, Hvis. reflexivity.
  - intros img Hel Hvis. unfold positionSectionBackground.
    rewrite (elements_present_guard s Hel), Hvis. unfold isImageLoaded.
    split; [destruct (complete img && _); reflexivity |]. split.
    + intros [-> [Hh | ->]]; cbn [andb].
      * apply Z.eqb_neq in Hh. rewrite Hh. split; reflexivity.
      * rewrite orb_true_r. split; reflexivity.
    + intros [-> | [-> ->]]; [split; reflexivity |].
      rewrite andb_false_r. split; reflexivity.
Qed.

Lemma positionSectionBackground_cases_witness :
  timeouts (positionSectionBackground (home_section (Some logo_svg))) = 1%nat
  /\ onLoad (positionSectionBackground (home_section (Some photo_loading))) = ["hero"]
  /\ positionSectionBackground (mkHomeSection false None (Some (mkBgStyle None None)) 600 0 O [])
     = mkHomeSection false None (Some (mkBgStyle None None)) 600 0 O [].
Proof.
  destruct (positionSectionBackground_cases (home_section (Some logo_svg))) as (_ & _ & Hsvg).
  destruct (positionSectionBackground_cases (home_section (Some photo_loading)))
    as (_ & _ & Hphoto).
  destruct (positionSectionBackground_cases
              (mkHomeSection false None (Some (mkBgStyle None None)) 600 0 O []))
    as (Hmissing & _).
  split; [| split].
  - apply (Hsvg logo_svg); [split; [reflexivity | eexists; reflexivity] | reflexivity |].
    split; [reflexivity | right; reflexivity].
  - apply (Hphoto photo_loading); [split; [reflexivity | eexists; reflexivity] | reflexivity |].
    left. reflexivity.
  - apply Hmissing. left. reflexivity.
Defined.

Lemma filter_eq_absent (id : string) (l : list string) :
  id ∉ l -> filter (fun x => x = id) l = [] /\ filter (fun x => x <> id) l = l.
Proof.
  induction l as [| y l IH]; intros Hnot; [split; reflexivity |].
  apply not_elem_of_cons in Hnot as [Hne Hnot]. destruct (IH Hnot) as [IH1 IH2].
  rewrite !filter_cons. destruct (decide (y = id)) as [-> | _]; [contradiction |].
  destruct (decide (y <> id)) as [_ | Hc]; [| exfalso; apply Hc; congruence].
  rewrite IH1, IH2. split; reflexivity.
Qed.

Lemma filter_ne_absent (id : string) (l : list string) :
  id ∉ filter (fun x => x <> id) l.
Proof. intros Hin. apply list_elem_of_filter in Hin as [Hne _]. contradiction. Qed.

(** X23. The load/error listener is one-shot. After
    positionSectionBackground has attached its listener to a visible
    image that is not loaded and carried no listener before, the first
    load or error event of that image starts exactly one timeout and
    removes the listener; any second event of that image starts
    nothing. Until the timeout fires the background's style is as it
    was. *)
Theorem onLoad_listener_fires_once (s : HomeSection) (img : Image)
    (first second : HomeEvent)
    (Hel : elements_present s)
    (Hvis : visibleImg s = Some img)
    (Hnot : isImageLoaded img = false)
    (Hfresh : image_id img ∉ onLoad s)
    (Hfirst : first = ImageError (image_id img)
              \/ exists h, first = ImageLoad (image_id img) h)
    (Hsecond : second = ImageError (image_id img)
               \/ exists h, second = ImageLoad (image_id img) h) :
  timeouts (home_step (positionSectionBackground s) first) = S (timeouts s)
  /\ onLoad (home_step (positionSectionBackground s) first) = onLoad s
  /\ timeouts (home_run (positionSectionBackground s) [first; second]) = S (timeouts s)
  /\ sectionBgImg (home_run (positionSectionBackground s) [first; second]) = sectionBgImg s.
Proof.
  unfold home_run. cbn [foldl].
  assert (Hp : positionSectionBackground s
               = mkHomeSection (has_homeImg s) (visibleImg s) (sectionBgImg s)
                   (rect_bottom s) (scrollY s) (timeouts s) (onLoad s ++ [image_id img])).
  { unfold positionSectionBackground.
    rewrite (elements_present_guard s Hel), Hvis, Hnot. reflexivity. }
  rewrite Hp. clear Hp.
  destruct (filter_eq_absent _ _ Hfresh) as [Hf1 Hf2].
  assert (Hrun : forall h s',
            onLoad s' = onLoad s ++ [image_id img] -> timeouts s' = timeouts s ->
            timeouts (run_onLoad (image_id img) h s') = S (timeouts s)
            /\ onLoad (run_onLoad (image_id img) h s') = onLoad s
            /\ sectionBgImg (run_onLoad (image_id img) h s') = sectionBgImg s').
  { intros h s' Ho Ht. unfold run_onLoad. cbn [timeouts onLoad sectionBgImg].
    rewrite Ho, Ht, !filter_app, Hf1, Hf2, !filter_cons, !filter_nil.
    destruct (decide (image_id img = image_id img)) as [_ | Hc]; [| contradiction].
    destruct (decide (image_id img <> image_id img)) as [Hc | _]; [contradiction |].
    rewrite app_nil_r. cbn. split; [lia | split; reflexivity]. }
  assert (Hagain : forall h s',
            onLoad s' = onLoad s -> 
            timeouts (run_onLoad (image_id img) h s') = timeouts s'
            /\ sectionBgImg (run_onLoad (image_id img) h s') = sectionBgImg s').
  { intros h s' Ho. unfold run_onLoad. cbn [timeouts onLoad sectionBgImg].
    rewrite Ho, Hf1. cbn. split; [lia | reflexivity]. }
  set (s1 := mkHomeSection _ _ _ _ _ _ (onLoad s ++ [image_id img])).
  assert (H1 : timeouts (home_step s1 first) = S (timeouts s)
               /\ onLoad (home_step s1 first) = onLoad s
               /\ sectionBgImg (home_step s1 first) = sectionBgImg s).
  { destruct Hfirst as [-> | [h ->]]; cbn [home_step];
      [destruct (Hrun 0 s1 eq_refl eq_refl) as (? & ? & ?)
      | destruct (Hrun h s1 eq_refl eq_refl) as (? & ? & ?)]; auto. }
  destruct H1 as (Ht1 & Ho1 & Hb1).
  split; [exact Ht1 |]. split; [exact Ho1 |].
  destruct Hsecond as [-> | [h ->]]; cbn [home_step];
    destruct (Hagain 0 (home_step s1 first) Ho1) as [Ha0 Hb0];
    try destruct (Hagain h (home_step s1 first) Ho1) as [Hah Hbh];
    split; congruence.
Qed.

Lemma onLoad_listener_fires_once_witness :
  timeouts (home_run (positionSectionBackground (home_section (Some photo_loading)))
              [ImageLoad "hero" 800; ImageError "hero"]) = 1%nat.
Proof.
  apply (onLoad_listener_fires_once (home_section (Some photo_loading)) photo_loading
           (ImageLoad "hero" 800) (ImageError "hero")).
  - split; [reflexivity | eexists; reflexivity].
  - reflexivity.
  - reflexivity.
  - cbn. apply not_elem_of_nil.
  - right. exists 800. reflexivity.
  - left. reflexivity.
Defined.



(** X25. With a loaded visible image the position is written only
    when the 50 ms timeout fires, and it is computed from the geometry
    of that moment: a resize leaves the style as it was, and if the page
    reflows or scrolls before the timeout fires, the background's top
    becomes the new bottom edge plus the new scroll offset, with
    opacity 1, and no timeout stays pending. *)
Theorem position_read_when_timeout_fires (s : HomeSection) (img : Image)
    (bottom scroll : Q)
    (Hel : elements_present s)
    (Hvis : visibleImg s = Some img)
    (Hloaded : isImageLoaded img = true)
    (Hidle : timeouts s = O) :
  sectionBgImg (home_step s WindowResize) = sectionBgImg s
  /\ sectionBgImg (home_run s [WindowResize; Layout bottom scroll; TimeoutFires])
     = Some (mkBgStyle (Some (bottom + scroll)%Q) (Some "1"))
  /\ timeouts (home_run s [WindowResize; Layout bottom scroll; TimeoutFires]) = O.
Proof.
  unfold home_run. cbn [foldl home_step]. unfold positionSectionBackground.
  rewrite (elements_present_guard s Hel), Hvis, Hloaded. cbn [timeouts sectionBgImg].
  destruct Hel as [_ [b Hb]]. unfold calculatePosition. cbn. rewrite Hb, Hidle.
  repeat split.
Qed.

Lemma position_read_when_timeout_fires_witness :
  sectionBgImg (home_run (home_section (Some logo_svg))
                  [WindowResize; Layout 640 120; TimeoutFires])
  = Some (mkBgStyle (Some (640 + 120)%Q) (Some "1")).
Proof.
  apply (position_read_when_timeout_fires (home_section (Some logo_svg)) logo_svg 640 120).
  - split; [reflexivity | eexists; reflexivity].
  - reflexivity.
  - reflexivity.
  - reflexivity.
Defined.

(** ** The project showcase *)

Lemma truthy_Some (u : string) : u <> "" -> truthy (Some u) = true.
Proof. intros Hu. cbn. destruct (String.eqb_spec u ""); [contradiction | reflexivity]. Qed.

(** X26. renderEvent makes the section clickable only when it can:
    without the container it renders nothing, attaches nothing and
    reports the missing container with console.error. With the
    container it renders the event; it then attaches one more click
    listener for the event's URL and sets the pointer cursor exactly
    when #home-project exists and the URL is a non-empty string, and
    otherwise leaves #home-project as it was, earlier listeners
    included. It never changes the location or the diamond. *)
Theorem renderEvent_click_listener (w : Window) (con : Console) (event : Event)
    (p : HomeProject) :
  (project_container p = None ->
   renderEvent w con event p
   = (p, con ++ [mkEntry "error" [AStr "Home project container not found"]]))
  /\ (forall held el u,
        project_container p = Some held -> homeProject p = Some el ->
        event_url event = Some u -> u <> "" ->
        homeProject (fst (renderEvent w con event p))
        = Some (mkProjectEl (Some "pointer") (clickListeners el ++ [u]) (hoverListeners el)))
  /\ (forall held,
        project_container p = Some held ->
        event_url event = None \/ event_url event = Some "" \/ homeProject p = None ->
        homeProject (fst (renderEvent w con event p)) = homeProject p)
  /\ (forall held,
        project_container p = Some held ->
        exists markup,
          project_container (fst (renderEvent w con event p)) = Some (Some markup)
          /\ titulo_text markup = title event)
  /\ href (fst (renderEvent w con event p)) = href p
  /\ projectDiamond (fst (renderEvent w con event p)) = projectDiamond p.
Proof.
  unfold renderEvent, initializeProjectClickHandler.
  split; [| split; [| split; [| split; [| split]]]].
  - intros ->. reflexivity.
  - intros held el u -> Hel -> Hu. cbn zeta. cbn [homeProject]. rewrite Hel.
    rewrite (truthy_Some u Hu). reflexivity.
  - intros held -> Hcase. cbn zeta. cbn [homeProject].
    destruct (homeProject p) as [el |] eqn:Hel; [| reflexivity].
    destruct Hcase as [-> | [-> | H]]; try discriminate; reflexivity.
  - intros held ->. cbn zeta. cbn [homeProject].
    destruct (homeProject p); [destruct (truthy (event_url event)) |];
      eexists; split; reflexivity.
  - destruct (project_container p); [| reflexivity]. cbn zeta. cbn [homeProject].
    destruct (homeProject p); [destruct (truthy (event_url event)) |]; reflexivity.
  - destruct (project_container p); [| reflexivity]. cbn zeta. cbn [homeProject].
    destruct (homeProject p); [destruct (truthy (event_url event)) |]; reflexivity.
Qed.

Lemma renderEvent_click_listener_witness :
  homeProject (fst (renderEvent (width 1024) [] event_taller project_section))
  = Some (mkProjectEl (Some "pointer") ["/programa-curatorial/taller-de-grabado/"] O)
  /\ homeProject (fst (renderEvent (width 1024) [] event_sin_pagina project_section))
     = homeProject project_section.
Proof.
  destruct (renderEvent_click_listener (width 1024) [] event_taller project_section)
    as (_ & Hurl & _).
  destruct (renderEvent_click_listener (width 1024) [] event_sin_pagina project_section)
    as (_ & _ & Hnone & _).
  split.
  - apply (Hurl None (mkProjectEl None [] O) "/programa-curatorial/taller-de-grabado/");
      (reflexivity || discriminate).
  - apply (Hnone None); [reflexivity | left; reflexivity].
Defined.

Lemma project_click_href (w : Window) (con : Console) (p : HomeProject) (el : ProjectEl) :
  homeProject p = Some el ->
  href (fst (project_click w con p)) = default (href p) (last (clickListeners el)).
Proof.
  intros Hel. unfold project_click. rewrite Hel. clear Hel.
  induction (clickListeners el) as [| target l IH] using rev_ind; [reflexivity |].
  rewrite foldl_app, last_snoc. cbn [foldl default].
  destruct (foldl _ (p, con) l) as [p' con']. reflexivity.
Qed.

(** X27. A click on the project section navigates to the URL of the
    listener attached last. So after renderEvent has rendered an event
    with a non-empty URL into an existing container and #home-project,
    a click sets window.location.href to that URL, whatever listeners
    were attached before; and if an event without URL is rendered after
    it, a click still navigates to the earlier event's URL. With no
    listener attached a click leaves the location as it is. *)
Theorem project_click_follows_latest_listener
    (w : Window) (con : Console) (event : Event) (p : HomeProject)
    (held : option EventMarkup) (el : ProjectEl) (u : string)
    (Hcontainer : project_container p = Some held)
    (Hproject : homeProject p = Some el)
    (Hurl : event_url event = Some u)
    (Hu : u <> "") :
  (forall w' con',
     href (fst (project_click w' con' (fst (renderEvent w con event p)))) = u)
  /\ (forall later w' con' con'',
        event_url later = None ->
        href (fst (project_click w' con'
                     (fst (renderEvent w con'' later (fst (renderEvent w con event p)))))) = u)
  /\ (forall w' con' q,
        (homeProject q = None \/ exists e, homeProject q = Some e /\ clickListeners e = []) ->
        href (fst (project_click w' con' q)) = href q).
Proof.
  destruct (renderEvent_click_listener w con event p) as (_ & Hattach & _ & Hmark & _).
  specialize (Hattach held el u Hcontainer Hproject Hurl Hu).
  destruct (Hmark held Hcontainer) as (markup & Hm & _).
  split; [| split].
  - intros w' con'. rewrite (project_click_href w' con' _ _ Hattach).
    cbn [clickListeners]. rewrite last_snoc. reflexivity.
  - intros later w' con' con'' Hlater.
    destruct (renderEvent_click_listener w con'' later (fst (renderEvent w con event p)))
      as (_ & _ & Hkeep & _).
    specialize (Hkeep (Some markup) Hm (or_introl Hlater)). rewrite Hattach in Hkeep.
    rewrite (project_click_href w' con' _ _ Hkeep).
    cbn [clickListeners]. rewrite last_snoc. reflexivity.
  - intros w' con' q [Hnone | (e & He & Hempty)].
    + unfold project_click. rewrite Hnone. reflexivity.
    + rewrite (project_click_href w' con' q e He), Hempty. reflexivity.
Qed.

Lemma project_click_follows_latest_listener_witness :
  href (fst (project_click (width 1024) []
               (fst (renderEvent (width 1024) [] event_sin_pagina
                       (fst (renderEvent (width 1024) [] event_taller project_section))))))
  = "/programa-curatorial/taller-de-grabado/".
Proof.
  destruct (project_click_follows_latest_listener (width 1024) [] event_taller project_section
              None (mkProjectEl None [] O) "/programa-curatorial/taller-de-grabado/"
              eq_refl eq_refl eq_refl) as (_ & Hlater & _); [discriminate |].
  apply Hlater. reflexivity.
Defined.

Lemma pointer_step_attached (w : Window) (p : HomeProject) (con : Console)
    (ev : PointerEvent) (el : ProjectEl) (n : nat) (b : bool) :
  homeProject p = Some el -> hoverListeners el = S n -> projectDiamond p = Some b ->
  homeProject (fst (pointer_step w (p, con) ev)) = Some el
  /\ projectDiamond (fst (pointer_step w (p, con) ev)) = Some (shows ev).
Proof.
  intros Hel Hn Hd. unfold pointer_step. rewrite Hel, Hn, Hd. split; reflexivity.
Qed.

(** X28. Once initializeProjectDiamondHover has run with both
    #home-project and the diamond on the page, the diamond is hidden,
    whatever its class was; and after any further pointer events it is
    shown exactly when the last of them was a mouseenter or a
    touchstart. When either element is missing the function attaches
    nothing: on a section that carried no hover listener before, no
    pointer event changes anything afterwards. *)
Theorem diamond_shown_iff_last_event_enters
    (w : Window) (con : Console) (p : HomeProject) (evs : list PointerEvent) :
  (forall el b,
     homeProject p = Some el -> projectDiamond p = Some b ->
     projectDiamond
       (fst (pointer_run w (initializeProjectDiamondHover w con p) evs))
     = Some (default false (shows <$> last evs)))
  /\ (homeProject p = None \/ projectDiamond p = None ->
      (forall el, homeProject p = Some el -> hoverListeners el = O) ->
      fst (pointer_run w (initializeProjectDiamondHover w con p) evs) = p).
Proof.
  split.
  - intros el b Hel Hd. unfold initializeProjectDiamondHover. rewrite Hel, Hd.
    set (el' := mkProjectEl (cursor el) (clickListeners el) (S (hoverListeners el))).
    set (st := (mkHomeProject _ (Some el') (Some false) _, _)).
    assert (Hgen : homeProject (fst (pointer_run w st evs)) = Some el'
                   /\ projectDiamond (fst (pointer_run w st evs))
                      = Some (default false (shows <$> last evs))).
    { unfold pointer_run. induction evs as [| ev evs IH] using rev_ind;
        [split; reflexivity |].
      rewrite foldl_app, last_snoc. cbn [foldl fmap option_fmap option_map default].
      destruct IH as [IHel IHd].
      destruct (foldl (pointer_step w) st evs) as [q c]. cbn [fst] in *.
      apply (pointer_step_attached w q c ev el' (hoverListeners el) _ IHel eq_refl IHd). }
    apply Hgen.
  - intros Hmissing Hnone. unfold initializeProjectDiamondHover.
    assert (Hinit : (match homeProject p, projectDiamond p with
                     | Some el, Some _ =>
                         (mkHomeProject (project_container p)
                            (Some (mkProjectEl (cursor el) (clickListeners el)
                                     (S (hoverListeners el))))
                            (Some false) (href p),
                          debug_line w
                            (debug_line w con [AStr "Diamond initialized as hidden (opacity: 0)"])
                            [AStr "Diamond hover effect initialized with opacity transitions"])
                     | _, _ =>
                         (p, debug_line w con [AStr "Home project or diamond element not found"])
                     end)
                    = (p, debug_line w con [AStr "Home project or diamond element not found"])).
    { destruct Hmissing as [-> | ->]; [reflexivity |]. destruct (homeProject p); reflexivity. }
    cbn zeta. rewrite Hinit. clear Hinit.
    generalize (debug_line w con [AStr "Home project or diamond element not found"]) as c.
    unfold pointer_run. induction evs as [| ev evs IH] using rev_ind; intros c; [reflexivity |].
    rewrite foldl_app. cbn [foldl].
    specialize (IH c). destruct (foldl (pointer_step w) (p, c) evs) as [q c'].
    cbn [fst] in IH. subst q. unfold pointer_step.
    destruct (homeProject p) as [el |] eqn:Hel; [| reflexivity].
    rewrite (Hnone el eq_refl). reflexivity.
Qed.

Lemma diamond_shown_iff_last_event_enters_witness :
  projectDiamond
    (fst (pointer_run (width 1024)
            (initializeProjectDiamondHover (width 1024) [] project_section)
            [MouseEnter; MouseLeave; TouchStart])) = Some true
  /\ projectDiamond
       (fst (pointer_run (width 1024)
               (initializeProjectDiamondHover (width 1024) [] project_section) []))
     = Some false.
Proof.
  destruct (diamond_shown_iff_last_event_enters (width 1024) [] project_section
              [MouseEnter; MouseLeave; TouchStart]) as [Hshown _].
  destruct (diamond_shown_iff_last_event_enters (width 1024) [] project_section [])
    as [Hhidden _].
  split.
  - apply (Hshown (mkProjectEl None [] O) true); reflexivity.
  - apply (Hhidden (mkProjectEl None [] O) true); reflexivity.
Defined.
